(** * pykernels/regular.py: the catalogue of "regular" kernels

    A shallow embedding of [src/pykernels/regular.py].  Every class of the
    module is a constructor of [Kernel] carrying the instance fields the
    class stores; [__init__], [_compute] and [dim] are functions over it.
    numpy's element type is kept abstract behind the [Scalar], [HasExp],
    [HasLog] and [HasPow] interfaces, which are instantiated twice: with IEEE binary64
    ([PrimFloat], what numpy computes with) and with the real numbers (the
    arithmetic the docstrings are written in). *)

From Stdlib Require Import List Bool Arith Lia ZArith.
From Stdlib Require Import Reals Lra.
From Stdlib Require Import Floats.
From Stdlib Require Uint63.
Import ListNotations.

Set Implicit Arguments.

(** ** Element operations *)

(** The arithmetic numpy applies to the elements of an array, and Python to
    the scalar parameters of a kernel. *)
Class Scalar (F : Type) : Type := {
  of_nat   : nat -> F;          (* float(n), and the numeric literals *)
  fadd     : F -> F -> F;       (* x + y *)
  fsub     : F -> F -> F;       (* x - y *)
  fmul     : F -> F -> F;       (* x * y *)
  fdiv     : F -> F -> F;       (* x / y *)
  fneg     : F -> F;            (* -x *)
  fabs     : F -> F;            (* np.abs *)
  fsqrt    : F -> F;            (* np.sqrt *)
  fminimum : F -> F -> F;       (* np.minimum *)
  flt      : F -> F -> bool     (* x < y *)
}.

(** The transcendental functions, which numpy takes from the C library; a
    kernel depends on those it calls only. *)
Class HasExp (F : Type) : Type := fexp : F -> F.          (* np.exp *)
Class HasLog (F : Type) : Type := flog : F -> F.          (* np.log *)
Class HasPow (F : Type) : Type := fpow : F -> F -> F.     (* x ** y, y a parameter *)

(** ** Errors *)

Inductive error : Type :=
| DomainError         (* the [Exception] of the positive-only kernels *)
| IndexError          (* a column index past the last column *)
| ShapeMismatchError. (* raised by [compute] on differing column counts *)

Inductive result (A : Type) : Type :=
| Ok (a : A)
| Raise (e : error).
Arguments Ok {A} a.
Arguments Raise {A} e.

Definition bind {A B : Type} (r : result A) (k : A -> result B) : result B :=
  match r with
  | Ok a => k a
  | Raise e => Raise e
  end.

Notation "x <- r ;; k" := (bind r (fun x => k))
  (at level 61, r at next level, right associativity).

(** The feature-space dimension a kernel declares: [np.inf] or [None]. *)
Inductive dimension : Type :=
| Infinite   (* np.inf *)
| Unknown.   (* None *)

Section Kernels.

Context {F : Type} {SC : Scalar F} {EX : HasExp F} {LG : HasLog F} {PW : HasPow F}.

Definition fzero : F := of_nat 0.
Definition fone : F := of_nat 1.
Definition ftwo : F := of_nat 2.

(** [x ** 2] with the integer literal as exponent: a squaring. *)
Definition square (x : F) : F := fmul x x.

(** ** Arrays *)

(** A 2-D array: [shape[1]] is kept beside the rows, since an array without
    rows still has a column count; [shape[0]] is the number of rows. *)
Record ndarray : Type := mk_ndarray {
  shape1 : nat;
  rows : list (list F)
}.

Definition shape0 (m : ndarray) : nat := length (rows m).

(** [m[i, j]] *)
Definition get (m : ndarray) (i j : nat) : option F :=
  match nth_error (rows m) i with
  | Some r => nth_error r j
  | None => None
  end.

(** A function applied to every element (ufuncs, and arithmetic between an
    array and a scalar). *)
Definition amap (f : F -> F) (m : ndarray) : ndarray :=
  mk_ndarray (shape1 m) (map (map f) (rows m)).

(** [np.zeros((n1, n2))] *)
Definition zeros (n1 n2 : nat) : ndarray :=
  mk_ndarray n2 (repeat (repeat fzero n2) n1).

Fixpoint zip_with {A B C : Type} (f : A -> B -> C) (xs : list A) (ys : list B)
  : list C :=
  match xs, ys with
  | x :: xs', y :: ys' => f x y :: zip_with f xs' ys'
  | _, _ => []
  end.

(** [kernel += m] for two arrays of one shape. *)
Definition iadd (kernel m : ndarray) : ndarray :=
  mk_ndarray (shape1 kernel) (zip_with (zip_with fadd) (rows kernel) (rows m)).

(** [np.any(m < 0)] *)
Definition any_negative (m : ndarray) : bool :=
  existsb (existsb (fun x => flt x fzero)) (rows m).

(** [m[:, d].reshape(-1, 1)]: the column [d], or an [IndexError]. *)
Definition column (m : ndarray) (d : nat) : result (list F) :=
  if d <? shape1 m then Ok (map (fun r => nth d r fzero) (rows m))
  else Raise IndexError.

(** [f(column_1, column_2.T)]: a column broadcast against a row. *)
Definition outer (f : F -> F -> F) (c1 c2 : list F) : ndarray :=
  mk_ndarray (length c2) (map (fun x => map (f x) c2) c1).

(** ** The distance utility *)

Definition dot (a b : list F) : F :=
  fold_left fadd (zip_with fmul a b) fzero.

(** ||a||^2 + ||b||^2 - 2 a.b *)
Definition sqdist (a b : list F) : F :=
  fsub (fadd (dot a a) (dot b b)) (fmul ftwo (dot a b)).

(** Modelled from the spec: [utils.euclidean_dist_matrix] is imported by
    regular.py and is not among the sources.  Section 4.1 of the
    specification gives its contract: for A (n1 x d) and B (n2 x d) the
    n1 x n2 array of squared distances, computed through the expansion
    ||a||^2 + ||b||^2 - 2 a.b. *)
Definition euclidean_dist_matrix (data_1 data_2 : ndarray) : ndarray :=
  mk_ndarray (shape0 data_2)
    (map (fun a => map (fun b => sqdist a b) (rows data_2)) (rows data_1)).

(** ** Kernel objects *)

(** An instance of one of the classes, with the fields [__init__] and
    [_compute] assign: [_sigma], [_c], [_d], [_gamma], [_alpha]. *)
Inductive Kernel : Type :=
| Exponential (_sigma : option F)
| Laplacian (_sigma : option F)
| RationalQuadratic (_c : F)
| InverseMultiquadratic (_c : F)
| Cauchy (_sigma : option F)
| TStudent (_d : F)
| ANOVA (_sigma _d : F)
| AdditiveChi2
| Chi2 (_gamma : F)
| Min
| GeneralizedHistogramIntersection (_alpha : F)
| Log (_d : F)
| Power (_d : F).

(** *** Constructors ([__init__]); [None] is an argument left unset.

    The instance is the one Python builds.  Where [sigma ** 2] or [c ** 2]
    overflows, Python raises an [OverflowError] and builds none:
    [square_overflows] below is that condition in binary64, and the
    constructors model the parameters for which it is false. *)

Definition Exponential__init__ (sigma : option F) : Kernel :=
  match sigma with
  | None => Exponential None
  | Some s => Exponential (Some (fmul ftwo (square s)))
  end.

Definition Laplacian__init__ (sigma : option F) : Kernel :=
  Laplacian sigma.

Definition RationalQuadratic__init__ (c : F) : Kernel :=
  RationalQuadratic c.


Definition Cauchy__init__ (sigma : option F) : Kernel :=
  match sigma with
  | None => Cauchy None
  | Some s => Cauchy (Some (square s))
  end.

Definition TStudent__init__ (degree : F) : Kernel := TStudent degree.
Definition ANOVA__init__ (sigma d : F) : Kernel := ANOVA sigma d.
Definition Chi2__init__ (gamma : F) : Kernel := Chi2 gamma.
Definition GeneralizedHistogramIntersection__init__ (alpha : F) : Kernel :=
  GeneralizedHistogramIntersection alpha.
Definition Log__init__ (d : F) : Kernel := Log d.
Definition Power__init__ (d : F) : Kernel := Power d.

(** *** [_compute]

    The methods that assign [self._sigma] take the field and return it
    beside the result; the others only read their fields. *)

(** [if self._sigma is None: self._sigma = float(data_1.shape[1])] *)
Definition lazy_sigma (_sigma : option F) (data_1 : ndarray) : F :=
  match _sigma with
  | None => of_nat (shape1 data_1)
  | Some s => s
  end.

Definition Exponential__compute (_sigma : option F) (data_1 data_2 : ndarray)
  : option F * result ndarray :=
  let sigma := lazy_sigma _sigma data_1 in
  let dists_sq := euclidean_dist_matrix data_1 data_2 in
  (Some sigma, Ok (amap (fun D => fexp (fdiv (fneg (fsqrt D)) sigma)) dists_sq)).

Definition RationalQuadratic__compute (_c : F) (data_1 data_2 : ndarray)
  : result ndarray :=
  let dists_sq := euclidean_dist_matrix data_1 data_2 in
  Ok (amap (fun D => fsub fone (fdiv D (fadd D _c))) dists_sq).

Definition InverseMultiquadratic__compute (_c : F) (data_1 data_2 : ndarray)
  : result ndarray :=
  let dists_sq := euclidean_dist_matrix data_1 data_2 in
  Ok (amap (fun D => fdiv fone (fsqrt (fadd D _c))) dists_sq).

Definition Cauchy__compute (_sigma : option F) (data_1 data_2 : ndarray)
  : option F * result ndarray :=
  let sigma := lazy_sigma _sigma data_1 in
  let dists_sq := euclidean_dist_matrix data_1 data_2 in
  (Some sigma, Ok (amap (fun D => fdiv fone (fadd fone (fdiv D sigma))) dists_sq)).

Definition TStudent__compute (_d : F) (data_1 data_2 : ndarray)
  : result ndarray :=
  let dists := amap fsqrt (euclidean_dist_matrix data_1 data_2) in
  Ok (amap (fun x => fdiv fone (fadd fone (fpow x _d))) dists).

(** [for d in range(data_1.shape[1]): ... kernel += f(column_1, column_2.T)],
    the loop shared by the column-wise kernels. *)
Fixpoint for_columns (f : F -> F -> F) (data_1 data_2 : ndarray)
  (ds : list nat) (kernel : ndarray) : result ndarray :=
  match ds with
  | [] => Ok kernel
  | d :: ds' =>
      column_1 <- column data_1 d ;;
      column_2 <- column data_2 d ;;
      for_columns f data_1 data_2 ds' (iadd kernel (outer f column_1 column_2))
  end.

Definition column_kernel (f : F -> F -> F) (data_1 data_2 : ndarray)
  : result ndarray :=
  for_columns f data_1 data_2 (seq 0 (shape1 data_1))
    (zeros (shape0 data_1) (shape0 data_2)).

Definition ANOVA_term (_sigma _d x y : F) : F :=
  fpow (fexp (fmul (fneg _sigma) (square (fsub x y)))) _d.

Definition ANOVA__compute (_sigma _d : F) (data_1 data_2 : ndarray)
  : result ndarray :=
  column_kernel (ANOVA_term _sigma _d) data_1 data_2.

Definition AdditiveChi2_term (x y : F) : F :=
  fdiv (fmul ftwo (fmul x y)) (fadd x y).

Definition AdditiveChi2__compute (data_1 data_2 : ndarray) : result ndarray :=
  if any_negative data_1 || any_negative data_2 then Raise DomainError
  else column_kernel AdditiveChi2_term data_1 data_2.

Definition Chi2_term (x y : F) : F :=
  fdiv (square (fsub x y)) (fadd x y).

Definition Chi2__compute (_gamma : F) (data_1 data_2 : ndarray)
  : result ndarray :=
  if any_negative data_1 || any_negative data_2 then Raise DomainError
  else
    kernel <- column_kernel Chi2_term data_1 data_2 ;;
    Ok (amap (fun k => fexp (fmul (fneg _gamma) k)) kernel).

Definition Min__compute (data_1 data_2 : ndarray) : result ndarray :=
  if any_negative data_1 || any_negative data_2 then Raise DomainError
  else column_kernel fminimum data_1 data_2.

(** [Min()._compute(np.abs(data_1)**self._alpha, np.abs(data_2)**self._alpha)] *)
Definition GeneralizedHistogramIntersection__compute (_alpha : F)
  (data_1 data_2 : ndarray) : result ndarray :=
  Min__compute (amap (fun x => fpow (fabs x) _alpha) data_1)
               (amap (fun x => fpow (fabs x) _alpha) data_2).

Definition Log__compute (_d : F) (data_1 data_2 : ndarray) : result ndarray :=
  Ok (amap (fun D => fneg (flog (fadd (fdiv (fpow D _d) ftwo) fone)))
           (euclidean_dist_matrix data_1 data_2)).

Definition Power__compute (_d : F) (data_1 data_2 : ndarray) : result ndarray :=
  Ok (amap (fun D => fdiv (fneg (fpow D _d)) ftwo)
           (euclidean_dist_matrix data_1 data_2)).

(** Method resolution: [Laplacian] inherits [Exponential._compute]; every
    other class defines its own.  The object after the call is returned
    beside the result. *)
Definition _compute (self : Kernel) (data_1 data_2 : ndarray)
  : Kernel * result ndarray :=
  match self with
  | Exponential s =>
      let (s', r) := Exponential__compute s data_1 data_2 in (Exponential s', r)
  | Laplacian s =>
      let (s', r) := Exponential__compute s data_1 data_2 in (Laplacian s', r)
  | RationalQuadratic c => (self, RationalQuadratic__compute c data_1 data_2)
  | InverseMultiquadratic c =>
      (self, InverseMultiquadratic__compute c data_1 data_2)
  | Cauchy s =>
      let (s', r) := Cauchy__compute s data_1 data_2 in (Cauchy s', r)
  | TStudent d => (self, TStudent__compute d data_1 data_2)
  | ANOVA s d => (self, ANOVA__compute s d data_1 data_2)
  | AdditiveChi2 => (self, AdditiveChi2__compute data_1 data_2)
  | Chi2 g => (self, Chi2__compute g data_1 data_2)
  | Min => (self, Min__compute data_1 data_2)
  | GeneralizedHistogramIntersection a =>
      (self, GeneralizedHistogramIntersection__compute a data_1 data_2)
  | Log d => (self, Log__compute d data_1 data_2)
  | Power d => (self, Power__compute d data_1 data_2)
  end.

(** Modelled from the spec: the base class [pykernels.base.Kernel] is not
    among the sources.  Section 4.2 of the specification gives its
    [compute]: it validates that the two inputs have the same column count,
    failing otherwise, and then invokes the formula. *)
Definition compute (self : Kernel) (data_1 data_2 : ndarray)
  : Kernel * result ndarray :=
  if shape1 data_1 =? shape1 data_2 then _compute self data_1 data_2
  else (self, Raise ShapeMismatchError).

(** *** [dim] *)

Definition dim (self : Kernel) : dimension :=
  match self with
  | Exponential _ | Laplacian _ => Infinite
  | RationalQuadratic _ => Unknown
  | InverseMultiquadratic _ => Infinite
  | Cauchy _ => Infinite
  | TStudent _ => Unknown
  | ANOVA _ _ => Unknown
  | AdditiveChi2 => Unknown
  | Chi2 _ => Unknown
  | Min => Unknown
  | GeneralizedHistogramIntersection _ => Unknown
  | Log _ => Unknown
  | Power _ => Unknown
  end.

End Kernels.

Arguments ndarray F : clear implicits.
Arguments Kernel F : clear implicits.

(** ** The two element types *)

(** IEEE 754 binary64, numpy's [float64].  The operations are the kernel's
    primitive floats; [np.minimum] returns its first argument when that is
    smaller or a NaN, and its second otherwise. *)
#[export] Instance float_Scalar : Scalar float := {|
  of_nat := fun n => PrimFloat.of_uint63 (Uint63.of_Z (Z.of_nat n));
  fadd := PrimFloat.add;
  fsub := PrimFloat.sub;
  fmul := PrimFloat.mul;
  fdiv := PrimFloat.div;
  fneg := PrimFloat.opp;
  fabs := PrimFloat.abs;
  fsqrt := PrimFloat.sqrt;
  fminimum := fun x y => if PrimFloat.ltb x y || PrimFloat.is_nan x then x else y;
  flt := PrimFloat.ltb
|}.

(** The real numbers: the values the formulas denote when no rounding,
    overflow or NaN occurs. *)
Definition Rltb (x y : R) : bool := if Rlt_dec x y then true else false.

(** [x ** y] on the reals, for the bases the kernels raise to a power (a
    distance, an exponential, an absolute value: never negative) and an
    exponent that keeps the result finite.  It is used at a positive base,
    and at base 0 with exponent 1; base 0 with a negative exponent (an
    infinity in binary64) and negative bases have no counterpart here. *)
Definition Rpow (x y : R) : R :=
  if Req_dec_T y 0 then 1%R
  else if Rle_dec x 0 then 0%R
  else Rpower x y.

#[export] Instance R_Scalar : Scalar R := {|
  of_nat := fun n => IZR (Z.of_nat n);
  fadd := Rplus;
  fsub := Rminus;
  fmul := Rmult;
  fdiv := Rdiv;
  fneg := Ropp;
  fabs := Rabs;
  fsqrt := R_sqrt.sqrt;
  fminimum := Rmin;
  flt := Rltb
|}.

#[export] Instance R_Exp : HasExp R := exp.
#[export] Instance R_Log : HasLog R := ln.
#[export] Instance R_Pow : HasPow R := Rpow.

(** ** Vocabulary of the statements *)

Section Vocabulary.

Context {F : Type} {SC : Scalar F} {EX : HasExp F} {LG : HasLog F} {PW : HasPow F}.

(** The entry [i, j] of a returned array; a raised error has none. *)
Definition entry (r : result (ndarray F)) (i j : nat) : option F :=
  match r with
  | Ok m => get m i j
  | Raise _ => None
  end.

(** Some element of the array tests [< 0]. *)
Definition has_negative (m : ndarray F) : Prop :=
  exists r x, In r (rows m) /\ In x r /\ flt x fzero = true.

(** The classes deriving from [PositiveKernel] that test their inputs. *)
Definition positive_only (k : Kernel F) : bool :=
  match k with
  | AdditiveChi2 | Chi2 _ | Min => true
  | _ => false
  end.

(** Valid input of a kernel: no negative element for the positive-only
    kernels, anything for the others. *)
Definition in_domain (k : Kernel F) (m : ndarray F) : Prop :=
  positive_only k = true -> any_negative m = false.

(** The classes whose [_compute] assigns [self._sigma]. *)
Definition sigma_field (k : Kernel F) : option (option F) :=
  match k with
  | Exponential s | Laplacian s | Cauchy s => Some s
  | _ => None
  end.

(** An instance whose [_sigma] is still [None]. *)
Definition sigma_unset (k : Kernel F) : bool :=
  match sigma_field k with
  | Some None => true
  | _ => false
  end.

(** The instance with [_sigma] assigned; the other classes have no such
    field. *)
Definition with_sigma (k : Kernel F) (s : F) : Kernel F :=
  match k with
  | Exponential _ => Exponential (Some s)
  | Laplacian _ => Laplacian (Some s)
  | Cauchy _ => Cauchy (Some s)
  | _ => k
  end.

(** What the loop of the column-wise kernels leaves in [kernel[i, j]] for
    the rows [a] of [data_1] and [b] of [data_2]. *)
Definition column_sum (f : F -> F -> F) (a b : list F) (ds : list nat) (k0 : F)
  : F :=
  fold_left (fun acc d => fadd acc (f (nth d a fzero) (nth d b fzero))) ds k0.

(** The laws of the arithmetic behind the symmetry of the formulas: they
    hold in binary64 as they do in exact arithmetic. *)
Class SymmetricOps : Prop := {
  fadd_comm : forall x y : F, fadd x y = fadd y x;
  fmul_comm : forall x y : F, fmul x y = fmul y x;
  fsub_square : forall x y : F, square (fsub x y) = square (fsub y x)
}.

(** The classes whose result goes through [np.minimum]. *)
Definition uses_minimum (k : Kernel F) : bool :=
  match k with
  | Min | GeneralizedHistogramIntersection _ => true
  | _ => false
  end.

(** A power of an absolute value does not test [< 0]. *)
Class PowAbs : Prop := {
  fpow_abs : forall x a : F, flt (fpow (fabs x) a) fzero = false
}.

End Vocabulary.

Arguments SymmetricOps F {SC}.
Arguments PowAbs F {SC PW}.

(** A truncated power series for e^x in binary64.  It stands for the C
    library's [exp] where a statement about every [exp] that maps NaN to NaN
    is run on concrete data. *)
Definition exp_series (x : float) : float :=
  fold_right (fun k acc => PrimFloat.add 1 (PrimFloat.mul (PrimFloat.div x (of_nat k)) acc))
             1%float (seq 1 20).

(** ** Concrete inputs *)

Module Examples.

Definition row_00 : ndarray R := mk_ndarray 2 [[0; 0]]%R.
Definition row_34 : ndarray R := mk_ndarray 2 [[3; 4]]%R.
Definition row_20 : ndarray R := mk_ndarray 2 [[2; 0]]%R.
Definition row_0 : ndarray R := mk_ndarray 1 [[0]]%R.
Definition row_1 : ndarray R := mk_ndarray 1 [[1]]%R.
Definition row_m2_3 : ndarray R := mk_ndarray 2 [[-2; 3]]%R.
Definition row_1_m1 : ndarray R := mk_ndarray 2 [[1; -1]]%R.

Definition zero_1x1 : ndarray float := mk_ndarray 1 [[0]]%float.
Definition float_12 : ndarray float := mk_ndarray 2 [[1; 2]]%float.
Definition float_24 : ndarray float := mk_ndarray 2 [[2; 4]]%float.

End Examples.

(** ** Readings of the specification to compare the code with *)

Section SpecifiedDefaults.

Context {F : Type} {SC : Scalar F} {EX : HasExp F}.

(** The specification's [Exponential] with sigma unset: sigma becomes the
    column count d of the first input and is stored as 2 sigma^2, the result
    being exp(-sqrt(D) / (2 d^2)). *)
Definition specified_Exponential_default (data_1 data_2 : ndarray F)
  : Kernel F * result (ndarray F) :=
  let d := of_nat (shape1 data_1) in
  let stored := fmul ftwo (square d) in
  (Exponential (Some stored),
   Ok (amap (fun D => fexp (fdiv (fneg (fsqrt D)) stored))
            (euclidean_dist_matrix data_1 data_2))).

(** The specification's [Cauchy] with sigma unset: the column count d is
    stored squared, the result being 1 / (1 + D / d^2). *)
Definition specified_Cauchy_default (data_1 data_2 : ndarray F)
  : Kernel F * result (ndarray F) :=
  let d := of_nat (shape1 data_1) in
  let stored := square d in
  (Cauchy (Some stored),
   Ok (amap (fun D => fdiv fone (fadd fone (fdiv D stored)))
            (euclidean_dist_matrix data_1 data_2))).

End SpecifiedDefaults.


(** ** Vocabulary of the further statements *)

Section FurtherVocabulary.

Context {F : Type} {SC : Scalar F}.

(** An array of [n1] rows of [n2] elements each. *)
Definition has_shape (n1 n2 : nat) (m : ndarray F) : Prop :=
  shape1 m = n2 /\ length (rows m) = n1 /\
  Forall (fun r => length r = n2) (rows m).

(** The classes whose [_compute] loops over the columns. *)
Definition column_wise (k : Kernel F) : bool :=
  match k with
  | ANOVA _ _ | AdditiveChi2 | Chi2 _ | Min
  | GeneralizedHistogramIntersection _ => true
  | _ => false
  end.

(** The sum of the first elements of a row, column after column as the loop
    adds them. *)
Definition row_sum (a : list F) (ds : list nat) : F :=
  fold_left (fun acc d => fadd acc (nth d a fzero)) ds fzero.

End FurtherVocabulary.


(** ** Binary64: comparison of results, and the library functions run *)

(** Python's [x == y] on two floats, or both are NaN (which [==] tells
    apart from everything, itself included). *)
Definition same_value (x y : float) : bool :=
  PrimFloat.eqb x y || (PrimFloat.is_nan x && PrimFloat.is_nan y).

(** The same on two entries: both present and the same value, or both out
    of range. *)
Definition same_entry (u v : option float) : bool :=
  match u, v with
  | Some x, Some y => same_value x y
  | None, None => true
  | _, _ => false
  end.

(** Two values of the specification of binary64 that are equal up to the
    sign of a zero. *)
Definition SFsame (x y : spec_float) : Prop :=
  x = y \/ exists s s', x = S754_zero s /\ y = S754_zero s'.


(** A truncated series for ln x, through 2 artanh ((x - 1) / (x + 1)), and
    x ** y as (e ^ (y ln x / 2)) ^ 2 with 1 ** y = 1.  Like [exp_series]
    they stand for the C library where a statement about every library
    function is run on concrete data. *)
Definition log_series (x : float) : float :=
  let z := PrimFloat.div (PrimFloat.sub x 1) (PrimFloat.add x 1) in
  let w := PrimFloat.mul z z in
  PrimFloat.mul (PrimFloat.mul 2 z)
    (fold_right
       (fun k acc =>
          PrimFloat.add (PrimFloat.div 1 (of_nat (2 * k + 1)))
                        (PrimFloat.mul w acc))
       0%float (seq 0 20)).

Definition pow_series (x y : float) : float :=
  if PrimFloat.eqb x 1 then 1%float
  else
    let r := exp_series
               (PrimFloat.div (PrimFloat.mul y (log_series x)) 2) in
    PrimFloat.mul r r.


(** * Properties *)

(** ** Entries of the arrays *)

Section ArrayFacts.

Context {F : Type} {SC : Scalar F} {EX : HasExp F} {LG : HasLog F} {PW : HasPow F}.

Lemma nth_error_zip_with {A B C : Type} (f : A -> B -> C) xs ys i :
  nth_error (zip_with f xs ys) i =
  match nth_error xs i, nth_error ys i with
  | Some x, Some y => Some (f x y)
  | _, _ => None
  end.
Proof.
  revert ys i; induction xs as [|x xs IH]; intros [|y ys] [|i]; simpl;
    try reflexivity.
  - destruct (nth_error xs i); reflexivity.
  - apply IH.
Qed.

Lemma get_amap (f : F -> F) (m : ndarray F) i j :
  get (amap f m) i j = option_map f (get m i j).
Proof.
  unfold get, amap; simpl.
  rewrite nth_error_map.
  destruct (nth_error (rows m) i) as [r|]; simpl; [|reflexivity].
  apply nth_error_map.
Qed.

Lemma get_iadd (k m : ndarray F) i j :
  get (iadd k m) i j =
  match get k i j, get m i j with
  | Some x, Some y => Some (fadd x y)
  | _, _ => None
  end.
Proof.
  unfold get, iadd; simpl.
  rewrite nth_error_zip_with.
  destruct (nth_error (rows k) i) as [r1|]; [|reflexivity].
  destruct (nth_error (rows m) i) as [r2|].
  - apply nth_error_zip_with.
  - destruct (nth_error r1 j); reflexivity.
Qed.

Lemma get_outer (f : F -> F -> F) (c1 c2 : list F) i j :
  get (outer f c1 c2) i j =
  match nth_error c1 i, nth_error c2 j with
  | Some x, Some y => Some (f x y)
  | _, _ => None
  end.
Proof.
  unfold get, outer; simpl.
  rewrite nth_error_map.
  destruct (nth_error c1 i) as [x|]; simpl; [|reflexivity].
  rewrite nth_error_map.
  destruct (nth_error c2 j); reflexivity.
Qed.

Lemma get_zeros (n1 n2 i j : nat) :
  get (zeros n1 n2 : ndarray F) i j =
  if (i <? n1) && (j <? n2) then Some fzero else None.
Proof.
  unfold get, zeros; simpl.
  destruct (Nat.ltb_spec i n1) as [Hi|Hi]; simpl.
  - rewrite nth_error_repeat by assumption.
    destruct (Nat.ltb_spec j n2) as [Hj|Hj].
    + apply nth_error_repeat; assumption.
    + apply nth_error_None. rewrite repeat_length. assumption.
  - replace (nth_error (repeat (repeat fzero n2) n1) i) with (@None (list F)).
    + reflexivity.
    + symmetry. apply nth_error_None. rewrite repeat_length. assumption.
Qed.

Lemma get_euclidean_dist_matrix (A B : ndarray F) i j :
  get (euclidean_dist_matrix A B) i j =
  match nth_error (rows A) i, nth_error (rows B) j with
  | Some a, Some b => Some (sqdist a b)
  | _, _ => None
  end.
Proof.
  unfold get, euclidean_dist_matrix; simpl.
  rewrite nth_error_map.
  destruct (nth_error (rows A) i) as [a|]; simpl; [|reflexivity].
  rewrite nth_error_map.
  destruct (nth_error (rows B) j); reflexivity.
Qed.

Lemma column_ok (m : ndarray F) d :
  d < shape1 m -> column m d = Ok (map (fun r => nth d r fzero) (rows m)).
Proof.
  intros H. unfold column.
  destruct (Nat.ltb_spec d (shape1 m)); [reflexivity | lia].
Qed.

(** The loop over in-range columns returns, and adds to every entry of
    [kernel] the terms of its pair of rows, column after column. *)
Lemma for_columns_entries (f : F -> F -> F) (A B : ndarray F) ds :
  (forall d, In d ds -> d < shape1 A /\ d < shape1 B) ->
  forall K, exists M,
    for_columns f A B ds K = Ok M /\
    (forall i j a b,
        nth_error (rows A) i = Some a -> nth_error (rows B) j = Some b ->
        get M i j = option_map (column_sum f a b ds) (get K i j)) /\
    (forall i j, get K i j = None -> get M i j = None).
Proof.
  induction ds as [|d ds IH]; intros Hds K.
  - exists K. split; [reflexivity|]. split.
    + intros i j a b _ _. destruct (get K i j); reflexivity.
    + auto.
  - destruct (Hds d (or_introl eq_refl)) as [HdA HdB].
    destruct (IH (fun d' H => Hds d' (or_intror H))
                 (iadd K (outer f (map (fun r => nth d r fzero) (rows A))
                                  (map (fun r => nth d r fzero) (rows B)))))
      as (M & HM & Hent & Hnone).
    exists M. split; [|split].
    + simpl. rewrite (column_ok A HdA), (column_ok B HdB). simpl. exact HM.
    + intros i j a b Ha Hb.
      rewrite (Hent i j a b Ha Hb), get_iadd, get_outer.
      rewrite !nth_error_map, Ha, Hb. simpl.
      destruct (get K i j); reflexivity.
    + intros i j HK. apply Hnone. rewrite get_iadd, HK. reflexivity.
Qed.

(** The column-wise kernels on inputs whose second array has at least the
    columns of the first. *)
Lemma column_kernel_entries (f : F -> F -> F) (A B : ndarray F) :
  shape1 A <= shape1 B ->
  exists M,
    column_kernel f A B = Ok M /\
    forall i j,
      get M i j =
      match nth_error (rows A) i, nth_error (rows B) j with
      | Some a, Some b => Some (column_sum f a b (seq 0 (shape1 A)) fzero)
      | _, _ => None
      end.
Proof.
  intros Hle. unfold column_kernel.
  destruct (@for_columns_entries f A B (seq 0 (shape1 A))) with
    (K := zeros (shape0 A) (shape0 B)) as (M & HM & Hent & Hnone).
  { intros d Hd. apply in_seq in Hd. lia. }
  exists M. split; [exact HM|].
  intros i j.
  destruct (nth_error (rows A) i) as [a|] eqn:Ha.
  - destruct (nth_error (rows B) j) as [b|] eqn:Hb.
    + rewrite (Hent i j a b Ha Hb), get_zeros.
      assert (i < shape0 A) by (apply nth_error_Some; congruence).
      assert (j < shape0 B) by (apply nth_error_Some; congruence).
      destruct (Nat.ltb_spec i (shape0 A)); [|lia].
      destruct (Nat.ltb_spec j (shape0 B)); [|lia].
      reflexivity.
    + apply Hnone. rewrite get_zeros.
      apply nth_error_None in Hb.
      destruct (Nat.ltb_spec j (shape0 B)); [unfold shape0 in *; lia|].
      rewrite andb_false_r. reflexivity.
  - apply Hnone. rewrite get_zeros.
    apply nth_error_None in Ha.
    destruct (Nat.ltb_spec i (shape0 A)); [unfold shape0 in *; lia|].
    reflexivity.
Qed.

End ArrayFacts.

(** ** The kernels *)

Section KernelFacts.

Context {F : Type} {SC : Scalar F} {EX : HasExp F} {LG : HasLog F} {PW : HasPow F}.

(** [compute] on inputs of one column count is the class's [_compute]. *)
Lemma compute_same_columns (k : Kernel F) (A B : ndarray F) :
  shape1 A = shape1 B -> compute k A B = _compute k A B.
Proof.
  intros H. unfold compute. rewrite H, Nat.eqb_refl. reflexivity.
Qed.

(** What [_compute] leaves in the instance: the column count of the first
    input in a [_sigma] that was [None], and nothing else. *)
Lemma fst__compute (k : Kernel F) (A B : ndarray F) :
  fst (_compute k A B) =
  if sigma_unset k then with_sigma k (of_nat (shape1 A)) else k.
Proof.
  destruct k as [[s|]|[s|]| | |[s|]| | | | | | | |]; reflexivity.
Qed.

(** Once a call has run, a call on inputs of the same column count returns
    what it would have returned on the fresh instance. *)
Lemma snd__compute_again (k : Kernel F) (A B A' B' : ndarray F) :
  shape1 A = shape1 A' ->
  snd (_compute (fst (_compute k A B)) A' B') = snd (_compute k A' B').
Proof.
  intros H.
  destruct k as [[s|]|[s|]| | |[s|]| | | | | | | |]; simpl; try reflexivity;
    rewrite H; reflexivity.
Qed.

Lemma any_negative_spec (m : ndarray F) :
  any_negative m = true <-> has_negative m.
Proof.
  unfold any_negative, has_negative. rewrite existsb_exists. split.
  - intros (r & Hr & Hx). apply existsb_exists in Hx as (x & Hx & Hlt).
    exists r, x. auto.
  - intros (r & x & Hr & Hx & Hlt). exists r. split; [assumption|].
    apply existsb_exists. exists x. auto.
Qed.

Lemma domain_check_spec (A B : ndarray F) :
  any_negative A || any_negative B = true <-> has_negative A \/ has_negative B.
Proof.
  rewrite orb_true_iff, !any_negative_spec. reflexivity.
Qed.

(** The column loop fails with an [IndexError] only. *)
Lemma for_columns_error (f : F -> F -> F) (A B : ndarray F) ds K e :
  for_columns f A B ds K = Raise e -> e = IndexError.
Proof.
  revert K; induction ds as [|d ds IH]; intros K; simpl.
  - discriminate.
  - unfold column.
    destruct (d <? shape1 A); simpl; [|congruence].
    destruct (d <? shape1 B); simpl; [|congruence].
    apply IH.
Qed.

Lemma column_kernel_error (f : F -> F -> F) (A B : ndarray F) e :
  column_kernel f A B = Raise e -> e = IndexError.
Proof. apply for_columns_error. Qed.

End KernelFacts.

(** ** Statements about every element type *)

Section Claims.

Context {F : Type} {SC : Scalar F} {EX : HasExp F} {LG : HasLog F} {PW : HasPow F}.

(** C10: [dim] takes the instance alone and no data, and whatever the fields
    hold it returns [np.inf] for Exponential, Laplacian,
    InverseMultiquadratic and Cauchy, and [None] for RationalQuadratic,
    TStudent, Log, Power, ANOVA, AdditiveChi2, Chi2, Min and
    GeneralizedHistogramIntersection; a call of [_compute] does not change
    it. *)
Theorem dim_declared :
  (forall s, dim (Exponential s : Kernel F) = Infinite) /\
  (forall s, dim (Laplacian s : Kernel F) = Infinite) /\
  (forall c, dim (InverseMultiquadratic c : Kernel F) = Infinite) /\
  (forall s, dim (Cauchy s : Kernel F) = Infinite) /\
  (forall c, dim (RationalQuadratic c : Kernel F) = Unknown) /\
  (forall d, dim (TStudent d : Kernel F) = Unknown) /\
  (forall d, dim (Log d : Kernel F) = Unknown) /\
  (forall d, dim (Power d : Kernel F) = Unknown) /\
  (forall s d, dim (ANOVA s d : Kernel F) = Unknown) /\
  dim (AdditiveChi2 : Kernel F) = Unknown /\
  (forall g, dim (Chi2 g : Kernel F) = Unknown) /\
  dim (Min : Kernel F) = Unknown /\
  (forall a, dim (GeneralizedHistogramIntersection a : Kernel F) = Unknown) /\
  (forall (k : Kernel F) A B, dim (fst (_compute k A B)) = dim k).
Proof.
  repeat split; try reflexivity.
  intros k A B. rewrite fst__compute.
  destruct k as [[s|]|[s|]| | |[s|]| | | | | | | |]; reflexivity.
Qed.

(** C8: [_compute] changes no field of the instance, except that an
    Exponential, Laplacian or Cauchy instance whose [_sigma] is [None] gets
    the column count of the first input assigned to it; after a call
    [_sigma] is set, so every later call leaves the instance as it is.  The
    instance after a call depends on the inputs through the column count of
    the first one only: its fields are scalars and keep no array. *)
Theorem compute_frame (k : Kernel F) (A B A' B' : ndarray F) :
  (sigma_unset k = true <->
   k = Exponential__init__ None \/ k = Laplacian__init__ None \/
   k = Cauchy__init__ None) /\
  fst (_compute k A B) =
    (if sigma_unset k then with_sigma k (of_nat (shape1 A)) else k) /\
  sigma_unset (fst (_compute k A B)) = false /\
  fst (_compute (fst (_compute k A B)) A' B') = fst (_compute k A B) /\
  (shape1 A = shape1 A' -> fst (_compute k A B) = fst (_compute k A' B')).
Proof.
  split; [|split; [|split; [|split]]].
  - destruct k as [[s|]|[s|]| | |[s|]| | | | | | | |]; simpl;
      (split; [intros H; try discriminate H; auto
              |intros [H|[H|H]]; try discriminate H; reflexivity]).
  - apply fst__compute.
  - rewrite fst__compute.
    destruct k as [[s|]|[s|]| | |[s|]| | | | | | | |]; reflexivity.
  - rewrite (fst__compute (fst (_compute k A B))), (fst__compute k).
    destruct k as [[s|]|[s|]| | |[s|]| | | | | | | |]; reflexivity.
  - intros H. rewrite !fst__compute, H. reflexivity.
Qed.

(** C3: a Laplacian built with an explicit sigma [s] stores [s] itself, and
    its [_compute] is Exponential's routine run on that stored value: the
    result is exp(-sqrt(D) / s) elementwise over the squared distances D.
    Exponential's own constructor stores 2 s^2 for the same routine. *)
Theorem Laplacian_raw_sigma (s : F) (A B : ndarray F) :
  _compute (Laplacian__init__ (Some s)) A B =
    (Laplacian (Some s),
     Ok (amap (fun D => fexp (fdiv (fneg (fsqrt D)) s))
              (euclidean_dist_matrix A B))) /\
  snd (_compute (Laplacian__init__ (Some s)) A B) =
    snd (Exponential__compute (Some s) A B) /\
  (forall i j a b,
      nth_error (rows A) i = Some a -> nth_error (rows B) j = Some b ->
      entry (snd (_compute (Laplacian__init__ (Some s)) A B)) i j =
        Some (fexp (fdiv (fneg (fsqrt (sqdist a b))) s))) /\
  snd (_compute (Exponential__init__ (Some s)) A B) =
    snd (Exponential__compute (Some (fmul ftwo (square s))) A B).
Proof.
  repeat split.
  intros i j a b Ha Hb. simpl.
  rewrite get_amap, get_euclidean_dist_matrix, Ha, Hb. reflexivity.
Qed.

(** C4, as the code has it: the constructor of Laplacian leaves an unset
    sigma unset, and the first [_compute], which is Exponential's, assigns
    the column count of its first input to it and divides by it, exactly as
    for an Exponential built with sigma unset. *)
Theorem Laplacian_lazy_default (A B : ndarray F) :
  Laplacian__init__ None = (Laplacian None : Kernel F) /\
  _compute (Laplacian__init__ None) A B =
    (Laplacian (Some (of_nat (shape1 A))),
     Ok (amap (fun D => fexp (fdiv (fneg (fsqrt D)) (of_nat (shape1 A))))
              (euclidean_dist_matrix A B))) /\
  snd (_compute (Laplacian__init__ None) A B) =
    snd (_compute (Exponential__init__ None) A B).
Proof. repeat split. Qed.

(** C1, as the code has it: with sigma unset, the first [_compute] of an
    Exponential stores the column count d of its first input untransformed
    and returns exp(-sqrt(D) / d) elementwise; that of a Cauchy stores d
    unsquared and returns 1 / (1 + D / d). *)
Theorem lazy_default_is_column_count (A B : ndarray F) :
  _compute (Exponential__init__ None) A B =
    (Exponential (Some (of_nat (shape1 A))),
     Ok (amap (fun D => fexp (fdiv (fneg (fsqrt D)) (of_nat (shape1 A))))
              (euclidean_dist_matrix A B))) /\
  _compute (Cauchy__init__ None) A B =
    (Cauchy (Some (of_nat (shape1 A))),
     Ok (amap (fun D => fdiv fone (fadd fone (fdiv D (of_nat (shape1 A)))))
              (euclidean_dist_matrix A B))).
Proof. split; reflexivity. Qed.

(** C2: for all inputs, [_compute] of AdditiveChi2, Chi2 and Min raises the
    domain error exactly when some element of either input tests [< 0]; the
    test comes first, so the outcome is then the error and no array,
    whatever the column loop would have done, and with no such element the
    domain error is not raised. *)
Theorem positive_only_domain_error (gamma : F) (A B : ndarray F) :
  (snd (_compute AdditiveChi2 A B) = Raise DomainError <->
   has_negative A \/ has_negative B) /\
  (snd (_compute (Chi2__init__ gamma) A B) = Raise DomainError <->
   has_negative A \/ has_negative B) /\
  (snd (_compute Min A B) = Raise DomainError <->
   has_negative A \/ has_negative B).
Proof.
  simpl. unfold AdditiveChi2__compute, Chi2__compute, Min__compute.
  rewrite <- domain_check_spec.
  destruct (any_negative A || any_negative B); repeat split;
    try discriminate; intros H; exfalso.
  - apply column_kernel_error in H. discriminate.
  - destruct (column_kernel Chi2_term A B) as [K|e] eqn:HK; simpl in H.
    + discriminate.
    + apply column_kernel_error in HK. congruence.
  - apply column_kernel_error in H. discriminate.
Qed.

End Claims.

(** ** Symmetry *)

Section Symmetry.

Context {F : Type} {SC : Scalar F} {EX : HasExp F} {LG : HasLog F} {PW : HasPow F}.
Context {laws : SymmetricOps F}.

Lemma zip_with_fmul_comm (a b : list F) : zip_with fmul a b = zip_with fmul b a.
Proof.
  revert b; induction a as [|x a IH]; intros [|y b]; simpl; try reflexivity.
  rewrite fmul_comm, IH. reflexivity.
Qed.

Lemma dot_comm (a b : list F) : dot a b = dot b a.
Proof. unfold dot. rewrite zip_with_fmul_comm. reflexivity. Qed.

Lemma sqdist_comm (a b : list F) : sqdist a b = sqdist b a.
Proof.
  unfold sqdist. rewrite (fadd_comm (dot a a)), (dot_comm a b). reflexivity.
Qed.

Lemma euclidean_dist_matrix_sym (A B : ndarray F) i j :
  get (euclidean_dist_matrix A B) i j = get (euclidean_dist_matrix B A) j i.
Proof.
  rewrite !get_euclidean_dist_matrix.
  destruct (nth_error (rows A) i) as [a|], (nth_error (rows B) j) as [b|];
    try reflexivity.
  rewrite sqdist_comm. reflexivity.
Qed.

Lemma amap_euclidean_sym (g : F -> F) (A B : ndarray F) i j :
  get (amap g (euclidean_dist_matrix A B)) i j =
  get (amap g (euclidean_dist_matrix B A)) j i.
Proof. rewrite !get_amap, euclidean_dist_matrix_sym. reflexivity. Qed.

(** The loop run on the rows in either order: the two sums are related by
    every relation that the terms respect and [+] preserves. *)
Lemma column_sum_related (Rel : F -> F -> Prop) (f : F -> F -> F)
  (a b : list F) ds :
  (forall x y, Rel (f x y) (f y x)) ->
  (forall u u' t t', Rel u u' -> Rel t t' -> Rel (fadd u t) (fadd u' t')) ->
  forall k0 k0', Rel k0 k0' ->
    Rel (column_sum f a b ds k0) (column_sum f b a ds k0').
Proof.
  intros Hf Hadd. unfold column_sum.
  induction ds as [|d ds IH]; intros k0 k0' Hk; simpl; [exact Hk|].
  apply IH. apply Hadd; [exact Hk | apply Hf].
Qed.

Lemma column_kernel_related (Rel : F -> F -> Prop) (f : F -> F -> F)
  (A B : ndarray F) :
  (forall x y, Rel (f x y) (f y x)) ->
  (forall u u' t t', Rel u u' -> Rel t t' -> Rel (fadd u t) (fadd u' t')) ->
  Rel fzero fzero ->
  shape1 A = shape1 B ->
  exists M N,
    column_kernel f A B = Ok M /\ column_kernel f B A = Ok N /\
    forall i j,
      match get M i j, get N j i with
      | Some u, Some v => Rel u v
      | None, None => True
      | _, _ => False
      end.
Proof.
  intros Hf Hadd H0 Hcols.
  destruct (@column_kernel_entries _ _ f A B) as (M & HM & HMe); [lia|].
  destruct (@column_kernel_entries _ _ f B A) as (N & HN & HNe); [lia|].
  exists M, N. split; [exact HM|]. split; [exact HN|].
  intros i j. rewrite HMe, HNe, Hcols.
  destruct (nth_error (rows A) i) as [a|], (nth_error (rows B) j) as [b|];
    try exact I.
  exact (@column_sum_related Rel f a b _ Hf Hadd _ _ H0).
Qed.

Lemma column_kernel_sym (f : F -> F -> F) (A B : ndarray F) :
  (forall x y, f x y = f y x) -> shape1 A = shape1 B ->
  exists M N,
    column_kernel f A B = Ok M /\ column_kernel f B A = Ok N /\
    forall i j, get M i j = get N j i.
Proof.
  intros Hf Hcols.
  destruct (@column_kernel_related eq f A B) as (M & N & HM & HN & H);
    try congruence.
  exists M, N. split; [exact HM|]. split; [exact HN|].
  intros i j. specialize (H i j).
  destruct (get M i j), (get N j i); try contradiction; congruence.
Qed.

Lemma ANOVA_term_sym (s d x y : F) : ANOVA_term s d x y = ANOVA_term s d y x.
Proof. unfold ANOVA_term. rewrite fsub_square. reflexivity. Qed.

Lemma AdditiveChi2_term_sym (x y : F) :
  AdditiveChi2_term x y = AdditiveChi2_term y x.
Proof.
  unfold AdditiveChi2_term. rewrite (fmul_comm x y), (fadd_comm x y).
  reflexivity.
Qed.

Lemma Chi2_term_sym (x y : F) : Chi2_term x y = Chi2_term y x.
Proof.
  unfold Chi2_term. rewrite fsub_square, (fadd_comm x y). reflexivity.
Qed.

Lemma any_negative_pow_abs {pa : PowAbs F} (alpha : F) (A : ndarray F) :
  any_negative (amap (fun x => fpow (fabs x) alpha) A) = false.
Proof.
  unfold any_negative, amap; simpl.
  induction (rows A) as [|r rs IH]; simpl; [reflexivity|].
  rewrite IH, orb_false_r.
  induction r as [|x r IHr]; simpl; [reflexivity|].
  rewrite fpow_abs, IHr. reflexivity.
Qed.

(** For the kernels that do not go through [np.minimum], both orders of the
    arguments return, and the two arrays are each other's transpose. *)
Lemma _compute_symmetric (k : Kernel F) (A B : ndarray F) :
  uses_minimum k = false ->
  shape1 A = shape1 B -> in_domain k A -> in_domain k B ->
  exists M N,
    snd (_compute k A B) = Ok M /\ snd (_compute k B A) = Ok N /\
    forall i j, get M i j = get N j i.
Proof.
  intros Hk Hcols HA HB. unfold in_domain in HA, HB.
  destruct k as [s|s|c|c|s|d|s d| |g| |a|d|d]; try discriminate Hk;
    simpl in *;
    try (eexists; eexists; split; [reflexivity|]; split; [reflexivity|];
         intros i j; unfold lazy_sigma; rewrite ?Hcols;
         apply amap_euclidean_sym).
  - (* TStudent *)
    eexists; eexists; split; [reflexivity|]; split; [reflexivity|].
    intros i j. rewrite !get_amap, euclidean_dist_matrix_sym. reflexivity.
  - (* ANOVA *)
    apply column_kernel_sym; [apply ANOVA_term_sym | exact Hcols].
  - (* AdditiveChi2 *)
    unfold AdditiveChi2__compute. rewrite HA, HB by reflexivity. simpl.
    apply column_kernel_sym; [apply AdditiveChi2_term_sym | exact Hcols].
  - (* Chi2 *)
    unfold Chi2__compute. rewrite HA, HB by reflexivity. simpl.
    destruct (@column_kernel_sym Chi2_term A B Chi2_term_sym Hcols)
      as (M & N & HM & HN & Hsym).
    rewrite HM, HN. simpl.
    eexists; eexists; split; [reflexivity|]; split; [reflexivity|].
    intros i j. rewrite !get_amap, Hsym. reflexivity.
Qed.

End Symmetry.

(** ** The real numbers as element type *)

Section ExactArithmetic.

Local Open Scope R_scope.

Lemma Rltb_false (x y : R) : Rltb x y = false <-> y <= x.
Proof.
  unfold Rltb. destruct (Rlt_dec x y); split; auto; try discriminate; lra.
Qed.

Lemma Rpow_positive (x y : R) : 0 < x -> y <> 0 -> Rpow x y = Rpower x y.
Proof.
  intros Hx Hy. unfold Rpow.
  destruct (Req_dec_T y 0); [contradiction|].
  destruct (Rle_dec x 0); [lra | reflexivity].
Qed.

Lemma Rpow_nonneg (x y : R) : 0 <= Rpow x y.
Proof.
  unfold Rpow.
  destruct (Req_dec_T y 0); [lra|].
  destruct (Rle_dec x 0); [lra|].
  unfold Rpower. left. apply exp_pos.
Qed.

Lemma Rpow_1 (x : R) : 0 < x -> Rpow x 1 = x.
Proof.
  intros Hx. rewrite Rpow_positive by lra. apply Rpower_1. assumption.
Qed.

Lemma Rpow_2 (x : R) : 0 < x -> Rpow x 2 = x * x.
Proof.
  intros Hx. rewrite Rpow_positive by lra.
  replace 2 with (1 + 1) by ring.
  rewrite Rpower_plus, Rpower_1 by assumption. reflexivity.
Qed.

#[export] Instance R_PowAbs : PowAbs R.
Proof.
  split. intros x a. apply Rltb_false. apply Rpow_nonneg.
Qed.

End ExactArithmetic.

(** ** The concrete scenarios, over the real numbers *)

Section Scenarios.

Import Examples.
Local Open Scope R_scope.

(** Runs the embedding on concrete arrays, down to real arithmetic. *)
Ltac run :=
  cbv -[Rpow Rabs Rmin Rplus Rmult Rminus Ropp Rdiv Rinv IZR Rltb exp ln
        R_sqrt.sqrt].

Ltac run_in H :=
  cbv -[Rpow Rabs Rmin Rplus Rmult Rminus Ropp Rdiv Rinv IZR Rltb exp ln
        R_sqrt.sqrt] in H.

Ltac not_negative :=
  cbv -[Rltb IZR]; repeat (rewrite (proj2 (Rltb_false _ _)) by lra);
  reflexivity.

(** C5: [Power(d)._compute] is -D^d / 2 elementwise over the squared
    distances, for every element type; on the reals
    [Power(d=2).compute([[0,0]], [[3,4]])] has the squared distance 25 and
    returns [[-312.5]]. *)
Theorem Power_formula :
  (forall (F : Type) (SC : Scalar F) (EX : HasExp F) (LG : HasLog F)
          (PW : HasPow F) (d : F) (A B : ndarray F),
      _compute (Power__init__ d) A B =
        (Power d,
         Ok (amap (fun D => fdiv (fneg (fpow D d)) ftwo)
                  (euclidean_dist_matrix A B))) /\
      forall i j a b,
        nth_error (rows A) i = Some a -> nth_error (rows B) j = Some b ->
        entry (snd (_compute (Power__init__ d) A B)) i j =
          Some (fdiv (fneg (fpow (sqdist a b) d)) ftwo)) /\
  euclidean_dist_matrix row_00 row_34 = mk_ndarray 1 [[25]] /\
  _compute (Power__init__ 2) row_00 row_34 =
    (Power 2, Ok (mk_ndarray 1 [[-312.5]])) /\
  compute (Power__init__ 2) row_00 row_34 =
    (Power 2, Ok (mk_ndarray 1 [[-312.5]])).
Proof.
  assert (H : _compute (Power__init__ 2) row_00 row_34 =
              (Power 2, Ok (mk_ndarray 1 [[-312.5]]))).
  { run. rewrite Rpow_2 by lra.
    match goal with
    | |- (_, Ok {| shape1 := _; rows := [[?x]] |}) = _ =>
        replace x with (-312.5) by lra
    end.
    reflexivity. }
  split; [|split; [|split]].
  - intros F SC EX LG PW d A B. split; [reflexivity|].
    intros i j a b Ha Hb. simpl.
    rewrite get_amap, get_euclidean_dist_matrix, Ha, Hb. reflexivity.
  - run.
    match goal with
    | |- {| shape1 := _; rows := [[?x]] |} = _ => replace x with 25 by lra
    end.
    reflexivity.
  - exact H.
  - rewrite compute_same_columns by reflexivity. exact H.
Qed.

(** C6: for every element type on which a power of an absolute value does
    not test [< 0], and all inputs and alpha,
    [GeneralizedHistogramIntersection(alpha)._compute(X, Y)] is the column
    loop of Min over |X|^alpha and |Y|^alpha and is not the domain error;
    on the reals, with alpha = 1, [[-2,3]] and [[1,-1]] give [[2]]. *)
Theorem GeneralizedHistogramIntersection_delegates :
  (forall (F : Type) (SC : Scalar F) (EX : HasExp F) (LG : HasLog F)
          (PW : HasPow F),
      PowAbs F ->
      forall (alpha : F) (X Y : ndarray F),
        snd (_compute (GeneralizedHistogramIntersection__init__ alpha) X Y) =
          Min__compute (amap (fun x => fpow (fabs x) alpha) X)
                       (amap (fun x => fpow (fabs x) alpha) Y) /\
        snd (_compute (GeneralizedHistogramIntersection__init__ alpha) X Y) =
          column_kernel fminimum (amap (fun x => fpow (fabs x) alpha) X)
                                 (amap (fun x => fpow (fabs x) alpha) Y) /\
        snd (_compute (GeneralizedHistogramIntersection__init__ alpha) X Y)
          <> Raise DomainError) /\
  snd (_compute (GeneralizedHistogramIntersection__init__ 1) row_m2_3 row_1_m1) =
    Ok (mk_ndarray 1 [[2]]) /\
  snd (compute (GeneralizedHistogramIntersection__init__ 1) row_m2_3 row_1_m1) =
    Ok (mk_ndarray 1 [[2]]).
Proof.
  assert (G : forall (F : Type) (SC : Scalar F) (PW : HasPow F),
             PowAbs F ->
             forall (alpha : F) (X Y : ndarray F),
               GeneralizedHistogramIntersection__compute alpha X Y =
               column_kernel fminimum (amap (fun x => fpow (fabs x) alpha) X)
                                      (amap (fun x => fpow (fabs x) alpha) Y)).
  { intros F SC PW pa alpha X Y.
    unfold GeneralizedHistogramIntersection__compute, Min__compute.
    rewrite !any_negative_pow_abs. reflexivity. }
  assert (H : snd (_compute (GeneralizedHistogramIntersection__init__ 1)
                            row_m2_3 row_1_m1) = Ok (mk_ndarray 1 [[2]])).
  { simpl. rewrite G by exact R_PowAbs. run.
    replace (Rabs (-2)) with 2 by (rewrite Rabs_left; lra).
    replace (Rabs (-1)) with 1 by (rewrite Rabs_left; lra).
    rewrite !Rabs_pos_eq by lra.
    rewrite !Rpow_1 by lra.
    rewrite !Rmin_right by lra.
    match goal with
    | |- Ok {| shape1 := _; rows := [[?x]] |} = _ => replace x with 2 by lra
    end.
    reflexivity. }
  split; [|split].
  - intros F SC EX LG PW pa alpha X Y. simpl.
    split; [reflexivity|]. split; [apply G; exact pa|].
    rewrite G by exact pa. intros E.
    apply column_kernel_error in E. discriminate.
  - exact H.
  - rewrite compute_same_columns by reflexivity. exact H.
Qed.

Lemma GeneralizedHistogramIntersection_delegates_witness :
  snd (_compute (GeneralizedHistogramIntersection__init__ 1) row_m2_3 row_1_m1) =
    Min__compute (amap (fun x => fpow (fabs x) 1) row_m2_3)
                 (amap (fun x => fpow (fabs x) 1) row_1_m1) /\
  snd (_compute (GeneralizedHistogramIntersection__init__ 1) row_m2_3 row_1_m1) =
    column_kernel fminimum (amap (fun x => fpow (fabs x) 1) row_m2_3)
                           (amap (fun x => fpow (fabs x) 1) row_1_m1) /\
  snd (_compute (GeneralizedHistogramIntersection__init__ 1) row_m2_3 row_1_m1)
    <> Raise DomainError.
Proof.
  exact (proj1 GeneralizedHistogramIntersection_delegates
               R R_Scalar R_Exp R_Log R_Pow R_PowAbs 1 row_m2_3 row_1_m1).
Defined.

(** C1 fails as stated: with sigma unset, on the 1-column rows [[0]] and
    [[1]] Exponential stores 1 and returns exp(-1), not 2 and exp(-1/2); on
    the 2-column rows [[0,0]] and [[2,0]] Cauchy stores 2 and returns 1/3,
    not 4 and 1/2. *)
Lemma lazy_default_not_transformed :
  fst (_compute (Exponential__init__ None) row_0 row_1) = Exponential (Some 1) /\
  fst (_compute (Exponential__init__ None) row_0 row_1) <>
    fst (specified_Exponential_default row_0 row_1) /\
  snd (_compute (Exponential__init__ None) row_0 row_1) <>
    snd (specified_Exponential_default row_0 row_1) /\
  fst (_compute (Cauchy__init__ None) row_00 row_20) = Cauchy (Some 2) /\
  fst (_compute (Cauchy__init__ None) row_00 row_20) <>
    fst (specified_Cauchy_default row_00 row_20) /\
  snd (_compute (Cauchy__init__ None) row_00 row_20) <>
    snd (specified_Cauchy_default row_00 row_20).
Proof.
  repeat split.
  - intros H. run_in H. injection H as H. lra.
  - intros H. run_in H. injection H as H.
    apply exp_inv in H.
    match type of H with
    | context [R_sqrt.sqrt ?e] =>
        replace e with 1 in H by lra; rewrite sqrt_1 in H
    end.
    lra.
  - intros H. run_in H. injection H as H. lra.
  - intros H. run_in H. injection H as H. lra.
Qed.

(** C4 fails as stated: a Laplacian built with sigma unset and run on
    2-column inputs has its sigma set to 2, the column count. *)
Lemma Laplacian_sigma_derived :
  sigma_field (Laplacian__init__ None : Kernel R) = Some None /\
  sigma_field (fst (_compute (Laplacian__init__ None) row_00 row_34)) =
    Some (Some 2) /\
  fst (_compute (Laplacian__init__ None) row_00 row_34) <> Laplacian None /\
  fst (compute (Laplacian__init__ None) row_00 row_34) <> Laplacian None.
Proof.
  repeat split; try (rewrite compute_same_columns by reflexivity);
    intros H; run_in H; discriminate H.
Qed.

(** C3 at sigma = 2 and the rows [[0,0]] and [[3,4]]. *)
Lemma Laplacian_raw_sigma_witness :
  entry (snd (_compute (Laplacian__init__ (Some 2)) row_00 row_34)) 0 0 =
    Some (exp (- R_sqrt.sqrt (sqdist [0; 0] [3; 4]) / 2)).
Proof.
  exact (proj1 (proj2 (proj2 (Laplacian_raw_sigma 2 row_00 row_34)))
               0%nat 0%nat [0; 0] [3; 4] eq_refl eq_refl).
Defined.

(** C5 at d = 2 and the rows [[0,0]] and [[3,4]]. *)
Lemma Power_formula_witness :
  entry (snd (_compute (Power__init__ 2) row_00 row_34)) 0 0 =
    Some (- Rpow (sqdist [0; 0] [3; 4]) 2 / 2).
Proof.
  exact (proj2 (proj1 Power_formula R R_Scalar R_Exp R_Log R_Pow 2
                      row_00 row_34)
               0%nat 0%nat [0; 0] [3; 4] eq_refl eq_refl).
Defined.

(** C8 at an Exponential with sigma unset, run on two pairs of 2-column
    inputs. *)
Lemma compute_frame_witness :
  fst (_compute (Exponential__init__ None) row_00 row_34) =
  fst (_compute (Exponential__init__ None) row_20 row_00).
Proof.
  exact (proj2 (proj2 (proj2 (proj2
           (compute_frame (Exponential__init__ None)
                          row_00 row_34 row_20 row_00)))) eq_refl).
Defined.

End Scenarios.

(** ** Binary64 as element type: NaN *)

Section Binary64.

Import Examples.
Local Open Scope float_scope.

Lemma is_nan_Prim2SF (x : float) :
  is_nan x = true <-> Prim2SF x = S754_nan.
Proof.
  unfold Prim2SF. split.
  - intros H. rewrite H. reflexivity.
  - destruct (is_nan x); [reflexivity|].
    destruct (is_zero x); [discriminate|].
    destruct (is_infinity x); [discriminate|].
    destruct (Z.frexp x) as [r e].
    destruct (shr_fexp prec emax (Uint63.to_Z (normfr_mantissa r))
                       (e - prec)%Z loc_Exact) as [shr e'].
    destruct (shr_m shr); discriminate.
Qed.

Lemma is_nan_add_l (x y : float) : is_nan x = true -> is_nan (x + y) = true.
Proof.
  rewrite !is_nan_Prim2SF, add_spec. intros H. rewrite H. reflexivity.
Qed.

Lemma is_nan_add_r (x y : float) : is_nan y = true -> is_nan (x + y) = true.
Proof.
  rewrite !is_nan_Prim2SF, add_spec. intros H. rewrite H.
  destruct (Prim2SF x); reflexivity.
Qed.

Lemma is_nan_mul_l (x y : float) : is_nan x = true -> is_nan (x * y) = true.
Proof.
  rewrite !is_nan_Prim2SF, mul_spec. intros H. rewrite H. reflexivity.
Qed.

Lemma is_nan_mul_r (x y : float) : is_nan y = true -> is_nan (x * y) = true.
Proof.
  rewrite !is_nan_Prim2SF, mul_spec. intros H. rewrite H.
  destruct (Prim2SF x); reflexivity.
Qed.

Lemma is_nan_div_l (x y : float) : is_nan x = true -> is_nan (x / y) = true.
Proof.
  rewrite !is_nan_Prim2SF, div_spec. intros H. rewrite H. reflexivity.
Qed.

(** The floats that compare equal to 0 are the two zeros. *)
Lemma eqb_zero (x : float) : (x =? 0) = true -> x = 0 \/ x = (-0).
Proof.
  rewrite eqb_spec. intros H.
  assert (Hz : exists s, Prim2SF x = S754_zero s).
  { change (Prim2SF 0) with (S754_zero false) in H.
    destruct (Prim2SF x) as [s|s| |s m e];
      try discriminate H; try (destruct s; discriminate H).
    exists s. reflexivity. }
  destruct Hz as [s Hz].
  rewrite <- (SF2Prim_Prim2SF x), Hz.
  destruct s; [right | left]; reflexivity.
Qed.

(** 0/0: both terms divide by [x + y], which is a zero with [x] and [y]. *)
Lemma AdditiveChi2_term_nan (x y : float) :
  (x =? 0) = true -> (y =? 0) = true ->
  is_nan (AdditiveChi2_term x y) = true.
Proof.
  intros Hx Hy.
  destruct (eqb_zero Hx) as [-> | ->], (eqb_zero Hy) as [-> | ->];
    reflexivity.
Qed.

Lemma Chi2_term_nan (x y : float) :
  (x =? 0) = true -> (y =? 0) = true -> is_nan (Chi2_term x y) = true.
Proof.
  intros Hx Hy.
  destruct (eqb_zero Hx) as [-> | ->], (eqb_zero Hy) as [-> | ->];
    reflexivity.
Qed.

(** A NaN in the accumulator stays, and a NaN term makes one. *)
Lemma column_sum_nan_acc (f : float -> float -> float) a b ds k0 :
  is_nan k0 = true -> is_nan (column_sum f a b ds k0) = true.
Proof.
  unfold column_sum. revert k0.
  induction ds as [|d ds IH]; intros k0 H; simpl; [exact H|].
  apply IH. apply is_nan_add_l. exact H.
Qed.

Lemma column_sum_nan_term (f : float -> float -> float) a b ds k0 k :
  In k ds -> is_nan (f (nth k a fzero) (nth k b fzero)) = true ->
  is_nan (column_sum f a b ds k0) = true.
Proof.
  revert k0. induction ds as [|d ds IH]; intros k0 Hin Hnan; [destruct Hin|].
  destruct Hin as [-> | Hin].
  - apply (column_sum_nan_acc f a b ds). apply is_nan_add_r. exact Hnan.
  - apply (IH _ Hin Hnan).
Qed.

Lemma exp_series_nan (x : float) :
  is_nan x = true -> is_nan (exp_series x) = true.
Proof.
  intros H. unfold exp_series. cbn [seq fold_right].
  apply is_nan_add_r, is_nan_mul_l, is_nan_div_l. exact H.
Qed.

(** C9: inputs that pass the test of non-negativity, of one column count,
    with a column [k] in which row [i] of the first and row [j] of the second
    both hold a zero: AdditiveChi2 and Chi2 return an array, and its entry
    (i, j) is a NaN (Chi2 for every [exp] that maps NaN to NaN). *)
Theorem unguarded_division_nan (EX : HasExp float)
  (gamma : float) (A B : ndarray float) (i j k : nat) (a b : list float) :
  (forall x, is_nan x = true -> is_nan (fexp x) = true) ->
  shape1 A = shape1 B ->
  any_negative A = false -> any_negative B = false ->
  nth_error (rows A) i = Some a -> nth_error (rows B) j = Some b ->
  k < shape1 A ->
  (nth k a fzero =? 0) = true -> (nth k b fzero =? 0) = true ->
  (exists M v, AdditiveChi2__compute A B = Ok M /\
               get M i j = Some v /\ is_nan v = true) /\
  (exists M v, Chi2__compute gamma A B = Ok M /\
               get M i j = Some v /\ is_nan v = true).
Proof.
  intros Hexp Hcols HA HB Ha Hb Hk Hxa Hxb.
  assert (Hin : In k (seq 0 (shape1 A))) by (apply in_seq; lia).
  unfold AdditiveChi2__compute, Chi2__compute. rewrite HA, HB. simpl.
  split.
  - destruct (@column_kernel_entries _ _ AdditiveChi2_term A B)
      as (M & HM & HMe); [lia|].
    exists M. eexists. split; [exact HM|].
    rewrite HMe, Ha, Hb. split; [reflexivity|].
    apply column_sum_nan_term with (k := k); [exact Hin|].
    apply AdditiveChi2_term_nan; assumption.
  - destruct (@column_kernel_entries _ _ Chi2_term A B)
      as (M & HM & HMe); [lia|].
    rewrite HM. simpl. eexists. eexists. split; [reflexivity|].
    rewrite get_amap, HMe, Ha, Hb. split; [reflexivity|].
    apply Hexp, is_nan_mul_r.
    apply column_sum_nan_term with (k := k); [exact Hin|].
    apply Chi2_term_nan; assumption.
Qed.

(** C9 at the 1 x 1 array [[0.]] on both sides. *)
Lemma unguarded_division_nan_witness :
  (exists M v, AdditiveChi2__compute zero_1x1 zero_1x1 = Ok M /\
               get M 0 0 = Some v /\ is_nan v = true) /\
  (exists M v, @Chi2__compute float float_Scalar exp_series 1 zero_1x1 zero_1x1
                 = Ok M /\
               get M 0 0 = Some v /\ is_nan v = true).
Proof.
  apply (@unguarded_division_nan exp_series 1 zero_1x1 zero_1x1 0 0 0 [0] [0]).
  - exact exp_series_nan.
  - reflexivity.
  - reflexivity.
  - reflexivity.
  - reflexivity.
  - reflexivity.
  - apply Nat.lt_0_1.
  - reflexivity.
  - reflexivity.
Defined.

End Binary64.

(** ** Binary64 as element type: symmetry *)

Section Binary64Arithmetic.

Local Open Scope Z_scope.

Lemma SFadd_comm (x y : spec_float) : SF64add x y = SF64add y x.
Proof.
  unfold SF64add.
  destruct x as [sx|sx| |sx mx ex], y as [sy|sy| |sy my ey];
    try reflexivity; try (destruct sx, sy; reflexivity).
  unfold SFadd. rewrite (Z.min_comm ey ex), Z.add_comm. reflexivity.
Qed.

Lemma SFmul_comm (x y : spec_float) : SF64mul x y = SF64mul y x.
Proof.
  unfold SF64mul.
  destruct x as [sx|sx| |sx mx ex], y as [sy|sy| |sy my ey];
    try reflexivity; try (destruct sx, sy; reflexivity).
  unfold SFmul.
  rewrite (xorb_comm sy sx), (Pos.mul_comm my mx), (Z.add_comm ey ex).
  reflexivity.
Qed.

(** Rounding treats the sign apart from the magnitude. *)
Lemma binary_round_aux_sign (s : bool) mx ex lx :
  binary_round_aux prec emax (negb s) mx ex lx =
  SFopp (binary_round_aux prec emax s mx ex lx).
Proof.
  unfold binary_round_aux.
  destruct (shr_fexp prec emax mx ex lx) as [mrs' e'].
  destruct (shr_fexp prec emax _ e' loc_Exact) as [mrs'' e''].
  destruct (shr_m mrs''); [reflexivity| |reflexivity].
  destruct (Z.leb _ _); reflexivity.
Qed.

Lemma binary_round_sign mx ex :
  binary_round prec emax true mx ex =
  SFopp (binary_round prec emax false mx ex).
Proof.
  unfold binary_round.
  destruct (shl_align mx ex _) as [mz ez].
  apply (binary_round_aux_sign false).
Qed.

Lemma SFmul_opp_opp (z : spec_float) :
  SF64mul (SFopp z) (SFopp z) = SF64mul z z.
Proof.
  unfold SF64mul. destruct z as [s|s| |s m e]; try reflexivity;
    destruct s; reflexivity.
Qed.

(** [y - x] is the opposite of [x - y], unless both are zeros. *)
Lemma SFsub_swap (x y : spec_float) :
  SF64sub y x = SFopp (SF64sub x y) \/
  exists s s', SF64sub x y = S754_zero s /\ SF64sub y x = S754_zero s'.
Proof.
  unfold SF64sub.
  destruct x as [sx|sx| |sx mx ex], y as [sy|sy| |sy my ey];
    try (left; reflexivity);
    try (destruct sx, sy;
         (left; reflexivity) ||
         (right; eexists; eexists; split; reflexivity));
    try (destruct sx; left; reflexivity);
    try (destruct sy; left; reflexivity).
  unfold SFsub. rewrite (Z.min_comm ey ex).
  set (a := cond_Zopp sx (Z.pos (fst (shl_align mx ex (Z.min ex ey))))).
  set (b := cond_Zopp sy (Z.pos (fst (shl_align my ey (Z.min ex ey))))).
  replace (b - a) with (- (a - b)) by ring.
  destruct (a - b) as [|p|p]; simpl.
  - right. eexists; eexists; split; reflexivity.
  - left. apply binary_round_sign.
  - left. rewrite binary_round_sign.
    destruct (binary_round prec emax false p _) as [[]|[]| |[] m e];
      reflexivity.
Qed.

Lemma SFcompare_antisym (x y : spec_float) :
  SFcompare y x = option_map CompOpp (SFcompare x y).
Proof.
  destruct x as [sx|sx| |sx mx ex], y as [sy|sy| |sy my ey];
    try reflexivity; try (destruct sx, sy; reflexivity);
    try (destruct sx; reflexivity); try (destruct sy; reflexivity).
  simpl. rewrite (Z.compare_antisym ex ey).
  assert (Hm : Pos.compare_cont Eq my mx = CompOpp (Pos.compare_cont Eq mx my))
    by apply (Pos.compare_antisym mx my).
  rewrite Hm.
  destruct sx, sy; simpl; try reflexivity;
    destruct (ex ?= ey); simpl; rewrite ?CompOpp_involutive; reflexivity.
Qed.

Lemma SFcompare_None (x y : spec_float) :
  SFcompare x y = None -> x = S754_nan \/ y = S754_nan.
Proof.
  destruct x as [sx|sx| |sx mx ex], y as [sy|sy| |sy my ey]; simpl;
    auto; discriminate.
Qed.

(** [==] holds of equal values and of two zeros only. *)
Lemma SFcompare_Eq (x y : spec_float) :
  SFcompare x y = Some Eq ->
  x = y \/ exists s s', x = S754_zero s /\ y = S754_zero s'.
Proof.
  destruct x as [sx|sx| |sx mx ex], y as [sy|sy| |sy my ey]; simpl;
    try discriminate;
    try (destruct sx; discriminate); try (destruct sy; discriminate).
  - intros _. right. eauto.
  - destruct sx, sy; try discriminate; left; reflexivity.
  - intros H. left.
    assert (ex = ey /\ mx = my) as [-> ->].
    { destruct sx, sy; try discriminate;
        destruct (ex ?= ey) eqn:E; try discriminate;
        apply Z.compare_eq in E; split; try assumption;
        injection H as H;
        try (apply (f_equal CompOpp) in H; rewrite CompOpp_involutive in H;
             simpl in H);
        apply Pos.compare_eq; exact H. }
    destruct sx, sy; try discriminate; reflexivity.
Qed.

Lemma SFadd_same (a a' t t' : spec_float) :
  SFsame a a' -> SFsame t t' -> SFsame (SF64add a t) (SF64add a' t').
Proof.
  unfold SFsame, SF64add.
  intros [-> | (s1 & s1' & -> & ->)] [-> | (s2 & s2' & -> & ->)].
  - left. reflexivity.
  - destruct a' as [[]|[]| |[] m e], s2, s2'; simpl;
      (left; reflexivity) || (right; eauto).
  - destruct t' as [[]|[]| |[] m e], s1, s1'; simpl;
      (left; reflexivity) || (right; eauto).
  - destruct s1, s1', s2, s2'; simpl; (left; reflexivity) || (right; eauto).
Qed.

End Binary64Arithmetic.

Section Binary64Symmetry.

Import Examples.
Local Open Scope float_scope.

Lemma float_add_comm (x y : float) : x + y = y + x.
Proof. apply Prim2SF_inj. rewrite !add_spec. apply SFadd_comm. Qed.

Lemma float_mul_comm (x y : float) : x * y = y * x.
Proof. apply Prim2SF_inj. rewrite !mul_spec. apply SFmul_comm. Qed.

Lemma float_sub_square (x y : float) :
  (x - y) * (x - y) = (y - x) * (y - x).
Proof.
  apply Prim2SF_inj. rewrite !mul_spec, !sub_spec.
  destruct (SFsub_swap (Prim2SF x) (Prim2SF y)) as [H | (s & s' & H1 & H2)].
  - rewrite H, SFmul_opp_opp. reflexivity.
  - rewrite H1, H2. destruct s, s'; reflexivity.
Qed.

#[export] Instance float_SymmetricOps : SymmetricOps float.
Proof.
  split.
  - exact float_add_comm.
  - exact float_mul_comm.
  - exact float_sub_square.
Qed.

Lemma same_value_refl (x : float) : same_value x x = true.
Proof. unfold same_value, is_nan. destruct (x =? x); reflexivity. Qed.

Lemma same_value_SFsame (x y : float) :
  same_value x y = true <-> SFsame (Prim2SF x) (Prim2SF y).
Proof.
  unfold same_value, SFsame. split.
  - intros H. apply orb_true_iff in H as [H | H].
    + rewrite eqb_spec in H. unfold SFeqb in H.
      destruct (SFcompare (Prim2SF x) (Prim2SF y)) as [[| |]|] eqn:E;
        try discriminate H.
      apply SFcompare_Eq. exact E.
    + apply andb_true_iff in H as [Hx Hy].
      apply is_nan_Prim2SF in Hx, Hy. left. congruence.
  - intros [H | (s & s' & Hx & Hy)].
    + apply Prim2SF_inj in H. subst y. apply same_value_refl.
    + rewrite eqb_spec, Hx, Hy. reflexivity.
Qed.

Lemma same_value_add (a a' t t' : float) :
  same_value a a' = true -> same_value t t' = true ->
  same_value (a + t) (a' + t') = true.
Proof.
  rewrite !same_value_SFsame, !add_spec. apply SFadd_same.
Qed.

Lemma ltb_nan_r (x y : float) : is_nan y = true -> (x <? y) = false.
Proof.
  intros H. apply is_nan_Prim2SF in H. rewrite ltb_spec, H.
  unfold SFltb. destruct (Prim2SF x); reflexivity.
Qed.

Lemma ltb_nan_l (x y : float) : is_nan x = true -> (x <? y) = false.
Proof.
  intros H. apply is_nan_Prim2SF in H. rewrite ltb_spec, H. reflexivity.
Qed.

(** [np.minimum] of two values in either order: the same value. *)
Lemma fminimum_same_value (x y : float) :
  same_value (fminimum x y) (fminimum y x) = true.
Proof.
  simpl.
  destruct (is_nan x) eqn:Nx, (is_nan y) eqn:Ny.
  - rewrite !orb_true_r. unfold same_value. rewrite Nx, Ny.
    apply orb_true_r.
  - rewrite orb_true_r, orb_false_r, (ltb_nan_r y x Nx).
    apply same_value_refl.
  - rewrite orb_true_r, orb_false_r, (ltb_nan_r x y Ny).
    apply same_value_refl.
  - rewrite !orb_false_r, !ltb_spec. unfold SFltb.
    rewrite (SFcompare_antisym (Prim2SF x) (Prim2SF y)).
    destruct (SFcompare (Prim2SF x) (Prim2SF y)) as [[| |]|] eqn:E; simpl.
    + unfold same_value. rewrite eqb_spec. unfold SFeqb.
      rewrite (SFcompare_antisym (Prim2SF x) (Prim2SF y)), E. reflexivity.
    + apply same_value_refl.
    + apply same_value_refl.
    + apply SFcompare_None in E as [E | E];
        apply is_nan_Prim2SF in E; congruence.
Qed.

(** A square does not test [< 0]. *)
Lemma square_not_negative (z : float) : (z * z <? 0) = false.
Proof.
  rewrite ltb_spec, mul_spec.
  change (Prim2SF 0) with (S754_zero false).
  unfold SFltb, SF64mul.
  destruct (Prim2SF z) as [[]|[]| |s m e]; try reflexivity.
  unfold SFmul.
  replace (xorb s s) with false by (destruct s; reflexivity).
  unfold binary_round_aux.
  destruct (shr_fexp prec emax _ _ loc_Exact) as [mrs' e'].
  destruct (shr_fexp prec emax _ e' loc_Exact) as [mrs'' e''].
  destruct (shr_m mrs''); [reflexivity| |reflexivity].
  destruct (Z.leb _ _); reflexivity.
Qed.

Lemma pow_series_abs : @PowAbs float float_Scalar pow_series.
Proof.
  split. intros x a. unfold fpow, pow_series.
  destruct (fabs x =? 1); [reflexivity|].
  apply square_not_negative.
Qed.

Lemma same_entry_eq (u v : option float) : u = v -> same_entry u v = true.
Proof.
  intros ->. destruct v; simpl; [apply same_value_refl | reflexivity].
Qed.

(** The Min loop over binary64, run on the two arrays in either order. *)
Lemma Min_column_kernel_same_value (A B : ndarray float) :
  shape1 A = shape1 B ->
  exists M N,
    column_kernel fminimum A B = Ok M /\ column_kernel fminimum B A = Ok N /\
    forall i j, same_entry (get M i j) (get N j i) = true.
Proof.
  intros Hcols.
  destruct (@column_kernel_related float float_Scalar
              (fun u v => same_value u v = true) fminimum A B)
    as (M & N & HM & HN & H).
  - exact fminimum_same_value.
  - exact same_value_add.
  - apply same_value_refl.
  - exact Hcols.
  - exists M, N. split; [exact HM|]. split; [exact HN|].
    intros i j. specialize (H i j). unfold same_entry.
    destruct (get M i j), (get N j i); try contradiction;
      [exact H | reflexivity].
Qed.

Lemma _compute_same_value (EX : HasExp float) (LG : HasLog float)
  (PW : HasPow float) (pa : PowAbs float) (k : Kernel float)
  (A B : ndarray float) :
  shape1 A = shape1 B -> in_domain k A -> in_domain k B ->
  exists M N,
    snd (_compute k A B) = Ok M /\ snd (_compute k B A) = Ok N /\
    (forall i j, same_entry (get M i j) (get N j i) = true) /\
    (uses_minimum k = false -> forall i j, get M i j = get N j i).
Proof.
  intros Hcols HA HB.
  destruct (uses_minimum k) eqn:Hk.
  - assert (Hmin : exists M N,
               snd (_compute k A B) = Ok M /\ snd (_compute k B A) = Ok N /\
               forall i j, same_entry (get M i j) (get N j i) = true).
    { unfold in_domain in HA, HB.
      destruct k as [s|s|c|c|s|d|s d| |g| |a|d|d]; try discriminate Hk;
        simpl in *.
      - unfold Min__compute. rewrite HA, HB by reflexivity. simpl.
        apply Min_column_kernel_same_value. exact Hcols.
      - unfold GeneralizedHistogramIntersection__compute, Min__compute.
        rewrite !any_negative_pow_abs. simpl.
        apply Min_column_kernel_same_value. exact Hcols. }
    destruct Hmin as (M & N & HM & HN & H).
    exists M, N. split; [exact HM|]. split; [exact HN|].
    split; [exact H|]. intros E. discriminate E.
  - destruct (@_compute_symmetric float float_Scalar EX LG PW
                float_SymmetricOps k A B Hk Hcols HA HB)
      as (M & N & HM & HN & H).
    exists M, N. split; [exact HM|]. split; [exact HN|].
    split; [|intros _; exact H].
    intros i j. apply same_entry_eq. apply H.
Qed.

(** C7, as the code has it in binary64: for every kernel of the catalogue
    and inputs [A], [B] of one column count with in-domain values, both
    [compute k A B] and [compute k B A] return, and entry (i, j) of the first
    and entry (j, i) of the second are the same value: they compare [==], or
    both are NaN; for the kernels that do not go through [np.minimum] they
    are equal bit for bit.  This also holds when the second call is made on
    the instance the first one left, and [compute k A A] is its own transpose
    in the same sense.  [compute] is there the class's [_compute]. *)
Theorem compute_symmetric_up_to_nan (EX : HasExp float) (LG : HasLog float)
  (PW : HasPow float) (k : Kernel float) :
  PowAbs float ->
  (forall A B : ndarray float,
      shape1 A = shape1 B -> in_domain k A -> in_domain k B ->
      exists M N,
        snd (compute k A B) = Ok M /\ snd (compute k B A) = Ok N /\
        snd (_compute k A B) = Ok M /\ snd (_compute k B A) = Ok N /\
        snd (compute (fst (compute k A B)) B A) = Ok N /\
        (forall i j, same_entry (get M i j) (get N j i) = true) /\
        (uses_minimum k = false -> forall i j, get M i j = get N j i)) /\
  (forall A : ndarray float,
      in_domain k A ->
      exists M,
        snd (compute k A A) = Ok M /\ snd (_compute k A A) = Ok M /\
        (forall i j, same_entry (get M i j) (get M j i) = true) /\
        (uses_minimum k = false -> forall i j, get M i j = get M j i)).
Proof.
  intros pa. split.
  - intros A B Hcols HA HB.
    destruct (@_compute_same_value EX LG PW pa k A B Hcols HA HB)
      as (M & N & HM & HN & H & Heq).
    exists M, N. rewrite !compute_same_columns by congruence.
    rewrite snd__compute_again by exact Hcols. auto 8.
  - intros A HA.
    destruct (@_compute_same_value EX LG PW pa k A A eq_refl HA HA)
      as (M & N & HM & HN & H & Heq).
    assert (N = M) by congruence. subst N.
    exists M. rewrite compute_same_columns by reflexivity. auto.
Qed.

(** C7 at the Min kernel and the rows [[1., 2.]] and [[2., 4.]]. *)
Lemma compute_symmetric_up_to_nan_witness :
  exists M N,
    snd (@compute float float_Scalar exp_series log_series pow_series
           Min float_12 float_24) = Ok M /\
    snd (@compute float float_Scalar exp_series log_series pow_series
           Min float_24 float_12) = Ok N /\
    snd (@_compute float float_Scalar exp_series log_series pow_series
           Min float_12 float_24) = Ok M /\
    snd (@_compute float float_Scalar exp_series log_series pow_series
           Min float_24 float_12) = Ok N /\
    snd (@compute float float_Scalar exp_series log_series pow_series
           (fst (@compute float float_Scalar exp_series log_series
                   pow_series Min float_12 float_24))
           float_24 float_12) = Ok N /\
    (forall i j, same_entry (get M i j) (get N j i) = true) /\
    (uses_minimum (Min : Kernel float) = false ->
     forall i j, get M i j = get N j i).
Proof.
  refine (proj1 (@compute_symmetric_up_to_nan exp_series log_series
                   pow_series Min pow_series_abs)
                float_12 float_24 eq_refl _ _);
    intros _; reflexivity.
Defined.

(** C7 fails as stated: [[0.]] passes the test of AdditiveChi2, the entry
    of [[0.]] with itself is NaN, and NaN == NaN is false. *)
Lemma symmetry_fails_on_nan :
  any_negative zero_1x1 = false /\
  entry (AdditiveChi2__compute zero_1x1 zero_1x1) 0 0 = Some nan /\
  (nan =? nan) = false /\
  same_value nan nan = true.
Proof. repeat split. Qed.

End Binary64Symmetry.

(** * Further properties of the column-wise kernels *)

Section ColumnLoop.

Context {F : Type} {SC : Scalar F} {EX : HasExp F} {LG : HasLog F} {PW : HasPow F}.

Lemma zip_with_length {A B C : Type} (f : A -> B -> C) xs ys :
  length xs = length ys -> length (zip_with f xs ys) = length xs.
Proof.
  revert ys; induction xs as [|x xs IH]; intros [|y ys] H; simpl in *;
    try discriminate; [reflexivity|].
  rewrite IH by lia. reflexivity.
Qed.

Lemma has_shape_zeros (n1 n2 : nat) : has_shape n1 n2 (zeros n1 n2 : ndarray F).
Proof.
  unfold has_shape, zeros; simpl. split; [reflexivity|].
  split; [apply repeat_length|].
  apply Forall_forall. intros r Hr. apply repeat_spec in Hr. subst r.
  apply repeat_length.
Qed.

Lemma has_shape_outer (f : F -> F -> F) (c1 c2 : list F) :
  has_shape (length c1) (length c2) (outer f c1 c2).
Proof.
  unfold has_shape, outer; simpl. split; [reflexivity|].
  split; [apply length_map|].
  apply Forall_forall. intros r Hr. apply in_map_iff in Hr as (x & <- & _).
  apply length_map.
Qed.

Lemma has_shape_iadd (n1 n2 : nat) (K M : ndarray F) :
  has_shape n1 n2 K -> has_shape n1 n2 M -> has_shape n1 n2 (iadd K M).
Proof.
  unfold has_shape, iadd; simpl.
  intros (HK1 & HK2 & HK3) (HM1 & HM2 & HM3).
  split; [exact HK1|]. split.
  - rewrite zip_with_length by congruence. exact HK2.
  - clear HK2 HM2. revert HM3. generalize (rows M).
    induction HK3 as [|r rs Hr _ IH]; intros [|r' rs'] HM3; simpl;
      try constructor.
    + inversion HM3; subst. rewrite zip_with_length by congruence. exact Hr.
    + inversion HM3; subst. apply IH. assumption.
Qed.

Lemma has_shape_amap (f : F -> F) (n1 n2 : nat) (M : ndarray F) :
  has_shape n1 n2 M -> has_shape n1 n2 (amap f M).
Proof.
  unfold has_shape, amap; simpl. intros (H1 & H2 & H3).
  split; [exact H1|]. split; [rewrite length_map; exact H2|].
  apply Forall_forall. intros r Hr. apply in_map_iff in Hr as (r0 & <- & Hr0).
  rewrite length_map. rewrite Forall_forall in H3. apply H3. exact Hr0.
Qed.

(** The loop keeps the shape of [kernel]. *)
Lemma for_columns_shape (f : F -> F -> F) (A B : ndarray F) ds :
  forall K M,
    has_shape (shape0 A) (shape0 B) K ->
    for_columns f A B ds K = Ok M ->
    has_shape (shape0 A) (shape0 B) M.
Proof.
  induction ds as [|d ds IH]; intros K M HK; simpl.
  - intros H. injection H as <-. exact HK.
  - unfold column.
    destruct (d <? shape1 A); simpl; [|discriminate].
    destruct (d <? shape1 B); simpl; [|discriminate].
    apply IH. apply has_shape_iadd; [exact HK|].
    pose proof (has_shape_outer f (map (fun r => nth d r fzero) (rows A))
                                  (map (fun r => nth d r fzero) (rows B))) as H.
    rewrite !length_map in H. exact H.
Qed.

Lemma column_kernel_shape (f : F -> F -> F) (A B M : ndarray F) :
  column_kernel f A B = Ok M -> has_shape (shape0 A) (shape0 B) M.
Proof.
  apply for_columns_shape. apply has_shape_zeros.
Qed.

(** The loop stops with an [IndexError] at a column the second array does
    not have. *)
Lemma for_columns_index_error (f : F -> F -> F) (A B : ndarray F) ds :
  (forall d, In d ds -> d < shape1 A) ->
  (exists d, In d ds /\ shape1 B <= d) ->
  forall K, for_columns f A B ds K = Raise IndexError.
Proof.
  induction ds as [|d ds IH]; intros HA (d0 & Hin & Hd0) K.
  - destruct Hin.
  - simpl. rewrite (column_ok A (HA d (or_introl eq_refl))). simpl.
    unfold column. destruct (Nat.ltb_spec d (shape1 B)) as [Hd|Hd]; simpl.
    + apply IH.
      * intros d' H'. apply HA. right. exact H'.
      * destruct Hin as [-> | Hin]; [lia|]. exists d0. auto.
    + reflexivity.
Qed.

Lemma column_kernel_index_error (f : F -> F -> F) (A B : ndarray F) :
  shape1 B < shape1 A -> column_kernel f A B = Raise IndexError.
Proof.
  intros H. apply for_columns_index_error.
  - intros d Hd. apply in_seq in Hd. lia.
  - exists (shape1 B). split; [apply in_seq; lia | lia].
Qed.

Lemma shape0_amap (f : F -> F) (A : ndarray F) : shape0 (amap f A) = shape0 A.
Proof. unfold shape0, amap; simpl. apply length_map. Qed.

(** X1: whenever the [_compute] of a column-wise kernel (ANOVA, AdditiveChi2,
    Chi2, Min, GeneralizedHistogramIntersection) returns an array, it has as
    many rows as [data_1] and every row has as many elements as [data_2] has
    rows. *)
Theorem column_wise_result_shape (k : Kernel F) (A B M : ndarray F) :
  column_wise k = true ->
  snd (_compute k A B) = Ok M ->
  has_shape (shape0 A) (shape0 B) M.
Proof.
  intros Hk.
  destruct k as [s|s|c|c|s|d|s d| |g| |a|d|d]; try discriminate Hk; simpl.
  - apply column_kernel_shape.
  - unfold AdditiveChi2__compute.
    destruct (any_negative A || any_negative B); [discriminate|].
    apply column_kernel_shape.
  - unfold Chi2__compute.
    destruct (any_negative A || any_negative B); [discriminate|].
    destruct (column_kernel Chi2_term A B) as [K|e] eqn:HK; simpl;
      [|discriminate].
    intros H. injection H as <-.
    apply has_shape_amap. apply (column_kernel_shape _ _ _ HK).
  - unfold Min__compute.
    destruct (any_negative A || any_negative B); [discriminate|].
    apply column_kernel_shape.
  - unfold GeneralizedHistogramIntersection__compute, Min__compute.
    destruct (_ || _); [discriminate|].
    intros H. apply column_kernel_shape in H.
    rewrite !shape0_amap in H. exact H.
Qed.

(** X2: when [data_2] has fewer columns than [data_1] and the inputs are in
    the kernel's domain, the [_compute] of a column-wise kernel raises an
    [IndexError]: the loop runs over the columns of [data_1] and indexes
    [data_2] with them. *)
Theorem fewer_columns_index_error {pa : PowAbs F} (k : Kernel F)
  (A B : ndarray F) :
  column_wise k = true ->
  in_domain k A -> in_domain k B ->
  shape1 B < shape1 A ->
  snd (_compute k A B) = Raise IndexError.
Proof.
  intros Hk HA HB Hlt. unfold in_domain in HA, HB.
  destruct k as [s|s|c|c|s|d|s d| |g| |a|d|d]; try discriminate Hk;
    simpl in *.
  - apply column_kernel_index_error. exact Hlt.
  - unfold AdditiveChi2__compute. rewrite HA, HB by reflexivity. simpl.
    apply column_kernel_index_error. exact Hlt.
  - unfold Chi2__compute. rewrite HA, HB by reflexivity. simpl.
    rewrite column_kernel_index_error by exact Hlt. reflexivity.
  - unfold Min__compute. rewrite HA, HB by reflexivity. simpl.
    apply column_kernel_index_error. exact Hlt.
  - unfold GeneralizedHistogramIntersection__compute, Min__compute.
    rewrite !any_negative_pow_abs. simpl.
    apply column_kernel_index_error. exact Hlt.
Qed.

(** X3: on in-domain inputs where [data_2] has at least the columns of
    [data_1], the entry (i, j) of ANOVA, AdditiveChi2 and Min is the sum,
    over the columns of [data_1] in order and starting from 0, of the
    kernel's term for the two rows, and that of Chi2 is exp(-gamma * sum);
    the further columns of [data_2] are not read. *)
Theorem column_wise_entries (sigma d gamma : F) (A B : ndarray F)
  (i j : nat) (a b : list F) :
  shape1 A <= shape1 B ->
  any_negative A = false -> any_negative B = false ->
  nth_error (rows A) i = Some a -> nth_error (rows B) j = Some b ->
  entry (snd (_compute (ANOVA__init__ sigma d) A B)) i j =
    Some (column_sum (ANOVA_term sigma d) a b (seq 0 (shape1 A)) fzero) /\
  entry (snd (_compute AdditiveChi2 A B)) i j =
    Some (column_sum AdditiveChi2_term a b (seq 0 (shape1 A)) fzero) /\
  entry (snd (_compute Min A B)) i j =
    Some (column_sum fminimum a b (seq 0 (shape1 A)) fzero) /\
  entry (snd (_compute (Chi2__init__ gamma) A B)) i j =
    Some (fexp (fmul (fneg gamma)
                     (column_sum Chi2_term a b (seq 0 (shape1 A)) fzero))).
Proof.
  intros Hle HA HB Ha Hb. simpl.
  unfold ANOVA__compute, AdditiveChi2__compute, Min__compute, Chi2__compute.
  rewrite HA, HB. simpl.
  repeat split.
  - destruct (@column_kernel_entries _ _ (ANOVA_term sigma d) A B Hle)
      as (M & -> & HM).
    simpl. rewrite HM, Ha, Hb. reflexivity.
  - destruct (@column_kernel_entries _ _ AdditiveChi2_term A B Hle)
      as (M & -> & HM).
    simpl. rewrite HM, Ha, Hb. reflexivity.
  - destruct (@column_kernel_entries _ _ fminimum A B Hle) as (M & -> & HM).
    simpl. rewrite HM, Ha, Hb. reflexivity.
  - destruct (@column_kernel_entries _ _ Chi2_term A B Hle) as (M & -> & HM).
    simpl. rewrite get_amap, HM, Ha, Hb. reflexivity.
Qed.

End ColumnLoop.

(** * Further properties of the parameters *)

Section LazyDefault.

Context {F : Type} {SC : Scalar F} {EX : HasExp F} {LG : HasLog F} {PW : HasPow F}.

(** X4: the default derived at the first call is what every later call
    divides by, whatever the column count of the later inputs: after a first
    [_compute] on [A], an Exponential, Laplacian or Cauchy built with sigma
    unset answers [A'], [B'] as the instance whose stored parameter is the
    column count of [A]. *)
Theorem lazy_default_kept (A B A' B' : ndarray F) :
  snd (_compute (fst (_compute (Exponential__init__ None) A B)) A' B') =
    Ok (amap (fun D => fexp (fdiv (fneg (fsqrt D)) (of_nat (shape1 A))))
             (euclidean_dist_matrix A' B')) /\
  snd (_compute (fst (_compute (Laplacian__init__ None) A B)) A' B') =
    Ok (amap (fun D => fexp (fdiv (fneg (fsqrt D)) (of_nat (shape1 A))))
             (euclidean_dist_matrix A' B')) /\
  snd (_compute (fst (_compute (Cauchy__init__ None) A B)) A' B') =
    Ok (amap (fun D => fdiv fone (fadd fone (fdiv D (of_nat (shape1 A)))))
             (euclidean_dist_matrix A' B')) /\
  (forall k : Kernel F,
      sigma_unset k = true ->
      snd (_compute (fst (_compute k A B)) A' B') =
      snd (_compute (with_sigma k (of_nat (shape1 A))) A' B')).
Proof.
  repeat split.
  intros k Hk. rewrite fst__compute, Hk. reflexivity.
Qed.

End LazyDefault.

(** * Further properties over binary64 *)

Section Binary64Parameters.

Import Examples.
Local Open Scope float_scope.







(** X6: the divisions of RationalQuadratic and InverseMultiquadratic are
    unguarded.  In binary64, where the squared distance of a pair of rows is
    zero, RationalQuadratic with c = 0 returns NaN and InverseMultiquadratic
    built with c = 0 returns +infinity. *)
Theorem zero_parameter_zero_distance (c D : float) (A B : ndarray float)
  (i j : nat) :
  get (euclidean_dist_matrix A B) i j = Some D ->
  (D =? 0) = true -> (c =? 0) = true ->
  (exists v, entry (RationalQuadratic__compute c A B) i j = Some v /\
             is_nan v = true) /\
  entry (InverseMultiquadratic__compute (square c) A B) i j = Some infinity.
Proof.
  intros HD HD0 Hc0.
  unfold RationalQuadratic__compute, InverseMultiquadratic__compute. simpl.
  rewrite !get_amap, HD. simpl.
  destruct (eqb_zero HD0) as [-> | ->], (eqb_zero Hc0) as [-> | ->];
    (split; [eexists; split; [reflexivity|reflexivity] | reflexivity]).
Qed.

Lemma zero_parameter_zero_distance_witness :
  (exists v, entry (RationalQuadratic__compute 0 zero_1x1 zero_1x1) 0 0 = Some v /\
             is_nan v = true) /\
  entry (InverseMultiquadratic__compute (square 0) zero_1x1 zero_1x1) 0 0 =
    Some infinity.
Proof.
  apply (@zero_parameter_zero_distance 0 0 zero_1x1 zero_1x1 0 0);
    reflexivity.
Defined.

(** X7: a Cauchy built with sigma unset and first run on inputs without
    columns stores 0 and divides by it: in binary64, where the squared
    distance is zero the entry is NaN. *)
Theorem Cauchy_default_without_columns (D : float) (A B : ndarray float)
  (i j : nat) :
  shape1 A = 0%nat ->
  get (euclidean_dist_matrix A B) i j = Some D ->
  (D =? 0) = true ->
  fst (Cauchy__compute None A B) = Some 0 /\
  exists v, entry (snd (Cauchy__compute None A B)) i j = Some v /\
            is_nan v = true.
Proof.
  intros HA HD HD0. unfold Cauchy__compute, lazy_sigma. rewrite HA. simpl.
  split; [reflexivity|].
  rewrite get_amap, HD. simpl.
  destruct (eqb_zero HD0) as [-> | ->]; eexists; split; reflexivity.
Qed.

Lemma Cauchy_default_without_columns_witness :
  fst (Cauchy__compute None (mk_ndarray 0 [[]]) (mk_ndarray 0 [[]])) = Some 0 /\
  exists v,
    entry (snd (Cauchy__compute None (mk_ndarray 0 [[]]) (mk_ndarray 0 [[]])))
          0 0 = Some v /\
    is_nan v = true.
Proof.
  apply (@Cauchy_default_without_columns 0 (mk_ndarray 0 [[]])
           (mk_ndarray 0 [[]]) 0 0); reflexivity.
Defined.

Lemma fminimum_same (x : float) : fminimum x x = x.
Proof. simpl. destruct ((x <? x) || is_nan x); reflexivity. Qed.

Lemma column_sum_fminimum_same (a : list float) ds (k0 : float) :
  column_sum fminimum a a ds k0 =
  fold_left (fun acc d => fadd acc (nth d a fzero)) ds k0.
Proof.
  unfold column_sum. revert k0.
  induction ds as [|d ds IH]; intros k0; cbn [fold_left]; [reflexivity|].
  rewrite fminimum_same. apply IH.
Qed.

(** X12: in binary64, on inputs without negative elements where [data_2]
    has at least the columns of [data_1], the Min kernel of a row with an
    equal row is the sum of the row's elements over the columns of
    [data_1], added in column order from 0: NaN and the rounding of the
    sum included, it is what the loop computes. *)
Theorem Min_same_row (A B : ndarray float) (i j : nat) (a : list float) :
  (shape1 A <= shape1 B)%nat ->
  any_negative A = false -> any_negative B = false ->
  nth_error (rows A) i = Some a -> nth_error (rows B) j = Some a ->
  entry (Min__compute A B) i j = Some (row_sum a (seq 0 (shape1 A))).
Proof.
  intros Hle HA HB Ha Hb. unfold Min__compute. rewrite HA, HB. cbn [orb].
  destruct (@column_kernel_entries _ _ fminimum A B Hle) as (M & -> & HM).
  cbn [entry]. rewrite HM, Ha, Hb. f_equal.
  apply column_sum_fminimum_same.
Qed.

Lemma Min_same_row_witness :
  entry (Min__compute float_12 float_12) 0 0 = Some (row_sum [1; 2] (seq 0 2)).
Proof.
  exact (@Min_same_row float_12 float_12 0 0 [1; 2]
           (le_n 2) eq_refl eq_refl eq_refl eq_refl).
Defined.








End Binary64Parameters.


(** * Further properties over the real numbers *)

Section ExactProperties.

Import Examples.
Local Open Scope R_scope.

Ltac passes_test :=
  cbv -[Rltb IZR]; repeat (rewrite (proj2 (Rltb_false _ _)) by lra);
  reflexivity.

Lemma not_negative_elements (A : ndarray R) :
  any_negative A = false ->
  forall r x, In r (rows A) -> In x r -> 0 <= x.
Proof.
  intros H r x Hr Hx.
  destruct (Rle_dec 0 x) as [Hle|Hn]; [exact Hle|exfalso].
  assert (Ht : any_negative A = true).
  { apply any_negative_spec. exists r, x. split; [exact Hr|].
    split; [exact Hx|]. change (Rltb x 0 = true).
    destruct (Rltb x 0) eqn:E; [reflexivity|].
    apply Rltb_false in E. lra. }
  congruence.
Qed.

(** |x| ** 1 is x on the elements that pass the test. *)
Lemma Rpow_abs_1 (x : R) : 0 <= x -> Rpow (Rabs x) 1 = x.
Proof.
  intros Hx. rewrite Rabs_pos_eq by exact Hx.
  destruct (Req_dec_T x 0) as [-> | Hn].
  - unfold Rpow. destruct (Req_dec_T 1 0); [lra|].
    destruct (Rle_dec 0 0); [reflexivity | lra].
  - apply Rpow_1. lra.
Qed.

Lemma amap_pow_abs_1 (A : ndarray R) :
  any_negative A = false -> amap (fun x => fpow (fabs x) 1) A = A.
Proof.
  intros H. pose proof (not_negative_elements A H) as Hpos.
  destruct A as [n rs]. unfold amap; simpl in *. f_equal.
  rewrite <- (map_id rs) at 2. apply map_ext_in. intros r Hr.
  rewrite <- (map_id r) at 2. apply map_ext_in. intros x Hx.
  apply Rpow_abs_1. apply (Hpos r x Hr Hx).
Qed.

(** X8: over the reals, on inputs without negative elements
    GeneralizedHistogramIntersection with alpha = 1 is the Min kernel. *)
Theorem GeneralizedHistogramIntersection_one_is_Min (A B : ndarray R) :
  any_negative A = false -> any_negative B = false ->
  _compute (GeneralizedHistogramIntersection__init__ 1) A B =
    (GeneralizedHistogramIntersection 1, snd (_compute Min A B)).
Proof.
  intros HA HB. simpl. unfold GeneralizedHistogramIntersection__compute.
  rewrite (amap_pow_abs_1 A HA), (amap_pow_abs_1 B HB). reflexivity.
Qed.

Lemma GeneralizedHistogramIntersection_one_is_Min_witness :
  _compute (GeneralizedHistogramIntersection__init__ 1) row_00 row_34 =
    (GeneralizedHistogramIntersection 1, snd (_compute Min row_00 row_34)).
Proof.
  apply GeneralizedHistogramIntersection_one_is_Min; passes_test.
Defined.

(** X1 at the Min kernel and the rows [[0,0]] and [[3,4]]. *)
Lemma column_wise_result_shape_witness :
  has_shape 1 1 (mk_ndarray 1 [[0 + Rmin 0 3 + Rmin 0 4]]).
Proof.
  apply (@column_wise_result_shape R R_Scalar R_Exp R_Log R_Pow
           Min row_00 row_34).
  - reflexivity.
  - simpl. unfold Min__compute.
    replace (any_negative row_00) with false by (symmetry; passes_test).
    replace (any_negative row_34) with false by (symmetry; passes_test).
    reflexivity.
Defined.

(** X2 at the Min kernel, a 2-column and a 1-column array. *)
Lemma fewer_columns_index_error_witness :
  snd (_compute Min row_00 row_0) = Raise IndexError.
Proof.
  apply (@fewer_columns_index_error R R_Scalar R_Exp R_Log R_Pow R_PowAbs
           Min row_00 row_0).
  - reflexivity.
  - intros _. passes_test.
  - intros _. passes_test.
  - apply le_n.
Defined.

(** X3 at sigma = 1, d = 2, gamma = 1 and the rows [[0,0]] and [[3,4]]. *)
Lemma column_wise_entries_witness :
  entry (snd (_compute (ANOVA__init__ 1 2) row_00 row_34)) 0 0 =
    Some (column_sum (ANOVA_term 1 2) [0; 0] [3; 4] (seq 0 2) fzero) /\
  entry (snd (_compute AdditiveChi2 row_00 row_34)) 0 0 =
    Some (column_sum AdditiveChi2_term [0; 0] [3; 4] (seq 0 2) fzero) /\
  entry (snd (_compute Min row_00 row_34)) 0 0 =
    Some (column_sum fminimum [0; 0] [3; 4] (seq 0 2) fzero) /\
  entry (snd (_compute (Chi2__init__ 1) row_00 row_34)) 0 0 =
    Some (fexp (fmul (fneg 1)
                     (column_sum Chi2_term [0; 0] [3; 4] (seq 0 2) fzero))).
Proof.
  apply (@column_wise_entries R R_Scalar R_Exp R_Log R_Pow 1 2 1
           row_00 row_34 0 0 [0; 0] [3; 4]).
  - apply le_n.
  - passes_test.
  - passes_test.
  - reflexivity.
  - reflexivity.
Defined.

End ExactProperties.


